(** * auto_editor/utils/types.py: the typed-value coercers

    A shallow embedding of the coercion functions of
    [auto_editor/utils/types.py] together with the part of the Python
    runtime they call: the [str] methods, [int()], [float()], [str()]
    of a float, the arithmetic of [int] and [float], and the two
    regular expressions of [color].  [Fraction()] on a string and the
    [pow] under [**] are parameters of the two coercers that call
    them.

    Conventions.
    - A Python [str] is a Rocq [string]; its characters are read as the
      code points 0..255.  The character classes below (white space,
      lower-casing, decimal digits) are the Unicode ones restricted to
      that range.
    - A Python [int] is a [Z].
    - A Python [float] is a binary64 value, [spec_float] with
      precision 53 and maximal exponent 1024; arithmetic is the
      correctly rounded arithmetic of [SpecFloat].
    - A call either returns a value or raises: [result]. *)

From Stdlib Require Import ZArith QArith Qabs List String Ascii Bool Lia.
From Stdlib Require Import DecimalString DecimalPos.
From Stdlib Require Import Floats.SpecFloat.
Import ListNotations.

Local Open Scope string_scope.
Local Open Scope Z_scope.

(** ** Exceptions and results *)

Inductive exn : Type :=
| CoerceError (msg : string)
| ValueError
| ZeroDivisionError
| OverflowError.

Inductive result (A : Type) : Type :=
| Ok (a : A)
| Raise (e : exn).

Arguments Ok {A} a.
Arguments Raise {A} e.

Definition bind {A B : Type} (r : result A) (k : A -> result B) : result B :=
  match r with
  | Ok a => k a
  | Raise e => Raise e
  end.

Notation "x <- r ;; k" := (bind r (fun x => k))
  (at level 61, r at next level, right associativity).
Notation "' p <- r ;; k" := (bind r (fun x => let p := x in k))
  (at level 61, p pattern, r at next level, right associativity).

Definition fails {A : Type} (r : result A) : Prop :=
  exists e, r = Raise e.

(** [only_CoerceError r]: when [r] is a failure, it is a [CoerceError]. *)
Definition only_CoerceError {A : Type} (r : result A) : Prop :=
  forall e, r = Raise e -> exists msg, e = CoerceError msg.

(** ** Strings *)

Module PyStr.

Definition code (c : ascii) : Z := Z.of_N (N_of_ascii c).

(** [str.isspace] of one character (Py_UNICODE_ISSPACE below 256). *)
Definition is_space (c : ascii) : bool :=
  let n := code c in
  ((9 <=? n) && (n <=? 13)) || ((28 <=? n) && (n <=? 32))
  || (n =? 133) || (n =? 160).

(** White space as [int()] and [float()] skip it: the C locale's
    [isspace] on ASCII input, and the Unicode spaces above 127. *)
Definition is_num_space (c : ascii) : bool :=
  let n := code c in
  ((9 <=? n) && (n <=? 13)) || (n =? 32) || (n =? 133) || (n =? 160).

Definition is_digit (c : ascii) : bool :=
  let n := code c in (48 <=? n) && (n <=? 57).

Definition digit_val (c : ascii) : Z := code c - 48.

(** [c in s] for a one-character [c]. *)
Fixpoint contains (c : ascii) (s : string) : bool :=
  match s with
  | EmptyString => false
  | String d s' => Ascii.eqb d c || contains c s'
  end.

(** [s.count(c)] for a one-character [c]. *)
Fixpoint count (c : ascii) (s : string) : nat :=
  match s with
  | EmptyString => O
  | String d s' => if Ascii.eqb d c then S (count c s') else count c s'
  end.

(** [s.split(sep)] for a one-character separator. *)
Fixpoint split (sep : ascii) (s : string) : list string :=
  match s with
  | EmptyString => [EmptyString]
  | String c s' =>
      if Ascii.eqb c sep then EmptyString :: split sep s'
      else match split sep s' with
           | [] => [String c EmptyString]
           | p :: ps => String c p :: ps
           end
  end.

Fixpoint lstrip_by (sp : ascii -> bool) (s : string) : string :=
  match s with
  | EmptyString => EmptyString
  | String c s' => if sp c then lstrip_by sp s' else s
  end.

Fixpoint rstrip_by (sp : ascii -> bool) (s : string) : string :=
  match s with
  | EmptyString => EmptyString
  | String c s' =>
      match rstrip_by sp s' with
      | EmptyString => if sp c then EmptyString else String c EmptyString
      | r => String c r
      end
  end.

Definition strip_by (sp : ascii -> bool) (s : string) : string :=
  rstrip_by sp (lstrip_by sp s).

(** [s.strip()] *)
Definition strip (s : string) : string := strip_by is_space s.

(** [s.lower()] on code points below 256. *)
Definition lower_char (c : ascii) : ascii :=
  let n := code c in
  if ((65 <=? n) && (n <=? 90))
     || ((192 <=? n) && (n <=? 222) && negb (n =? 215))
  then ascii_of_N (Z.to_N (n + 32)) else c.

Fixpoint lower (s : string) : string :=
  match s with
  | EmptyString => EmptyString
  | String c s' => String (lower_char c) (lower s')
  end.

(** [s in (a, b, ...)] for a tuple of strings. *)
Definition mem (s : string) (l : list string) : bool :=
  existsb (String.eqb s) l.

(** [x * 2] for a string [x] of one character, joined over a string:
    ["".join([x * 2 for x in s])]. *)
Fixpoint double_each (s : string) : string :=
  match s with
  | EmptyString => EmptyString
  | String c s' => String c (String c (double_each s'))
  end.

(** Every character of [s] satisfies [p]. *)
Fixpoint all_chars (p : ascii -> bool) (s : string) : bool :=
  match s with
  | EmptyString => true
  | String c s' => p c && all_chars p s'
  end.

(** [sep.join(l)] for a one-character separator. *)
Fixpoint join (sep : ascii) (l : list string) : string :=
  match l with
  | [] => EmptyString
  | [a] => a
  | a :: l' => a ++ String sep (join sep l')
  end.

End PyStr.

(** ** [int(s)] *)

Module PyInt.
Import PyStr.

(** A run of digits with single underscores between digits:
    [digit (_? digit)*].  [run_value] returns the value of the run and
    its number of digits; the empty run has zero digits. *)
Fixpoint run_go (s : string) (acc : Z) (n : Z) (prev_digit : bool)
  : option (Z * Z) :=
  match s with
  | EmptyString => if prev_digit then Some (acc, n) else None
  | String c s' =>
      if is_digit c then run_go s' (10 * acc + digit_val c) (n + 1) true
      else if Ascii.eqb c "_"%char then
        if prev_digit then run_go s' acc n false else None
      else None
  end.

Definition run_value (s : string) : option (Z * Z) :=
  match s with
  | EmptyString => Some (0, 0)
  | _ => run_go s 0 0 false
  end.

Definition strip_sign (s : string) : bool * string :=
  match s with
  | String "-"%char s' => (true, s')
  | String "+"%char s' => (false, s')
  | _ => (false, s)
  end.

(** [int(s)] in base 10: white space around, an optional sign, then a
    non-empty run of digits.  Everything else is a [ValueError].  (The
    limit an interpreter may put on the number of digits, a
    [ValueError] as well, is left out.) *)
Definition int_of_str (s : string) : result Z :=
  let '(neg, body) := strip_sign (strip_by is_num_space s) in
  match body with
  | EmptyString => Raise ValueError
  | _ =>
      match run_go body 0 0 false with
      | Some (v, _) => Ok (if neg then - v else v)
      | None => Raise ValueError
      end
  end.

(** The characters [str] of an [int] is made of. *)
Definition digit_or_minus (c : ascii) : bool :=
  is_digit c || Ascii.eqb c "-"%char.

(** [str(z)] for an [int]. *)
Definition str_of_int (z : Z) : string :=
  NilZero.string_of_int (Z.to_int z).

(** What the digits of a decimal numeral add to the value [acc] of the
    digits before them. *)
Fixpoint uint_value (u : Decimal.uint) (acc : Z) : Z :=
  match u with
  | Decimal.Nil => acc
  | Decimal.D0 l => uint_value l (10 * acc + 0)
  | Decimal.D1 l => uint_value l (10 * acc + 1)
  | Decimal.D2 l => uint_value l (10 * acc + 2)
  | Decimal.D3 l => uint_value l (10 * acc + 3)
  | Decimal.D4 l => uint_value l (10 * acc + 4)
  | Decimal.D5 l => uint_value l (10 * acc + 5)
  | Decimal.D6 l => uint_value l (10 * acc + 6)
  | Decimal.D7 l => uint_value l (10 * acc + 7)
  | Decimal.D8 l => uint_value l (10 * acc + 8)
  | Decimal.D9 l => uint_value l (10 * acc + 9)
  end.

End PyInt.

(** ** Floats *)

Module PyFloat.
Import PyStr PyInt.

Definition prec : Z := 53.
Definition emax : Z := 1024.
Definition float : Type := spec_float.

Definition add : float -> float -> float := SFadd prec emax.
Definition mul : float -> float -> float := SFmul prec emax.
Definition div : float -> float -> float := SFdiv prec emax.
Definition ltb : float -> float -> bool := SFltb.
Definition leb : float -> float -> bool := SFleb.

(** Structural equality (both zeros and the NaN are told apart). *)
Definition same (x y : float) : bool :=
  match x, y with
  | S754_zero s, S754_zero t => Bool.eqb s t
  | S754_infinity s, S754_infinity t => Bool.eqb s t
  | S754_nan, S754_nan => true
  | S754_finite s m e, S754_finite t n f =>
      Bool.eqb s t && Pos.eqb m n && Z.eqb e f
  | _, _ => false
  end.

(** The float nearest to an integer (ties to even); overflows to an
    infinity. *)
Definition of_Z (z : Z) : float := binary_normalize prec emax z 0 false.

(** A result that has left the range of the floats is an
    [OverflowError]. *)
Definition in_range (x : float) : result float :=
  match x with
  | S754_infinity _ => Raise OverflowError
  | _ => Ok x
  end.

(** Conversion of an [int] operand to [float] in mixed arithmetic:
    [OverflowError] when the integer is too large. *)
Definition of_int (z : Z) : result float := in_range (of_Z z).

(** The float nearest to the rational [n / d] (ties to even), with the
    sign [neg]. *)
Definition of_ratio (neg : bool) (n d : positive) : float :=
  let '(mz, ez, lz) := SFdiv_core_binary prec emax (Zpos n) 0 (Zpos d) 0 in
  binary_round_aux prec emax neg mz ez lz.

(** The float nearest to the decimal [D * 10^E], with the sign [neg]. *)
Definition of_decimal (neg : bool) (D E : Z) : float :=
  match D with
  | Zpos d =>
      if 0 <=? E then binary_round prec emax neg (Z.to_pos (Zpos d * 10 ^ E)) 0
      else of_ratio neg d (Z.to_pos (10 ^ (- E)))
  | _ => S754_zero neg
  end.

(** [a / b] on two [int]s: correctly rounded true division. *)
Definition int_truediv (a b : Z) : result float :=
  if b =? 0 then Raise ZeroDivisionError
  else
    let neg := xorb (a <? 0) (b <? 0) in
    match Z.abs a, Z.abs b with
    | Zpos n, Zpos d => in_range (of_ratio neg n d)
    | _, _ => Ok (S754_zero neg)
    end.

(** [x.is_integer()] *)
Definition is_integer (x : float) : bool :=
  match x with
  | S754_zero _ => true
  | S754_finite _ m e => (0 <=? e) || (Zpos m mod 2 ^ (- e) =? 0)
  | _ => false
  end.

(** [int(x)]: truncation towards zero. *)
Definition to_int (x : float) : result Z :=
  match x with
  | S754_zero _ => Ok 0
  | S754_finite s m e =>
      let v := if 0 <=? e then Zpos m * 2 ^ e else Zpos m / 2 ^ (- e) in
      Ok (if s then - v else v)
  | S754_infinity _ => Raise OverflowError
  | S754_nan => Raise ValueError
  end.

(** [round(x)]: the nearest integer, ties to even. *)
Definition round (x : float) : result Z :=
  match x with
  | S754_zero _ => Ok 0
  | S754_finite s m e =>
      let v :=
        if 0 <=? e then Zpos m * 2 ^ e
        else
          let d := 2 ^ (- e) in
          let q := Zpos m / d in
          let r := Zpos m mod d in
          match 2 * r ?= d with
          | Lt => q
          | Gt => q + 1
          | Eq => if Z.even q then q else q + 1
          end in
      Ok (if s then - v else v)
  | S754_infinity _ => Raise OverflowError
  | S754_nan => Raise ValueError
  end.

(** *** [float(s)] *)

Fixpoint span_run (s : string) : string * string :=
  match s with
  | EmptyString => (EmptyString, EmptyString)
  | String c s' =>
      if is_digit c || Ascii.eqb c "_"%char
      then let '(r, t) := span_run s' in (String c r, t)
      else (EmptyString, s)
  end.

(** The exponent after [e]: an optional sign and a non-empty run, up to
    the end of the string. *)
Definition parse_exponent (s : string) : option Z :=
  let '(neg, body) := strip_sign s in
  match body with
  | EmptyString => None
  | _ =>
      match run_go body 0 0 false with
      | Some (v, _) => Some (if neg then - v else v)
      | None => None
      end
  end.

(** [digits [. digits] [e exponent]] with at least one digit before the
    exponent; the result [(D, E)] stands for [D * 10^E]. *)
Definition parse_decimal (s : string) : option (Z * Z) :=
  let '(ip, r1) := span_run s in
  let '(fp, r2) :=
    match r1 with
    | String "."%char t => span_run t
    | _ => (EmptyString, r1)
    end in
  match run_value ip, run_value fp with
  | Some (iv, ni), Some (fv, nf) =>
      if ni + nf =? 0 then None
      else
        let D := iv * 10 ^ nf + fv in
        match r2 with
        | EmptyString => Some (D, - nf)
        | String c t =>
            if Ascii.eqb c "e"%char || Ascii.eqb c "E"%char then
              match parse_exponent t with
              | Some x => Some (D, x - nf)
              | None => None
              end
            else None
        end
  | _, _ => None
  end.

(** [float(s)]: white space around, an optional sign, then [inf],
    [infinity], [nan] (in any case) or a decimal literal; the value is
    correctly rounded, overflowing to an infinity.  Everything else is a
    [ValueError]. *)
Definition of_str (s : string) : result float :=
  let '(neg, body) := strip_sign (strip_by is_num_space s) in
  let l := lower body in
  if mem l ["inf"; "infinity"] then Ok (S754_infinity neg)
  else if String.eqb l "nan" then Ok S754_nan
  else
    match parse_decimal body with
    | Some (D, E) => Ok (of_decimal neg D E)
    | None => Raise ValueError
    end.

(** The float a literal of the source denotes, as in [99999.0]. *)
Definition lit (s : string) : float :=
  match of_str s with
  | Ok x => x
  | Raise _ => S754_nan
  end.

(** *** [str(x)]: the shortest decimal string that reads back as [x] *)

Definition ndigits10 (z : Z) : Z :=
  match z with
  | Zpos p => Z.of_nat (Decimal.nb_digits (Pos.to_uint p))
  | _ => 0
  end.

Definition digits_of_Z (z : Z) : string :=
  NilZero.string_of_int (Z.to_int z).

(** The positive float [m * 2^e] as a fraction. *)
Definition fraction_of (m : positive) (e : Z) : Z * Z :=
  if 0 <=? e then (Zpos m * 2 ^ e, 1) else (Zpos m, 2 ^ (- e)).

(** The position of the decimal point: the [p] with
    [10^(p-1) <= m * 2^e < 10^p]. *)
Definition decpt_of (m : positive) (e : Z) : Z :=
  let '(n, d) := fraction_of m e in
  if d <=? n then ndigits10 (n / d) else 1 - ndigits10 (d / n).

(** The decimal of [nd] digits that reads back as [m * 2^e], if there
    is one: of the two decimals around the value, the one that reads
    back, and the nearer one when both do. *)
Definition digits_at (m : positive) (e : Z) (p : Z) (nd : Z) : option Z :=
  let '(n, d) := fraction_of m e in
  let k := nd - p in
  let n' := if 0 <=? k then n * 10 ^ k else n in
  let d' := if 0 <=? k then d else d * 10 ^ (- k) in
  let lo := n' / d' in
  let r := n' mod d' in
  let back c := same (of_decimal false c (- k)) (S754_finite false m e) in
  match back lo, back (lo + 1) with
  | true, true =>
      match 2 * r ?= d' with
      | Lt => Some lo
      | Gt => Some (lo + 1)
      | Eq => Some (if Z.even lo then lo else lo + 1)
      end
  | true, false => Some lo
  | false, true => Some (lo + 1)
  | false, false => None
  end.

(** The first number of digits, from [nd] on, for which a decimal reads
    back.  Seventeen digits always do, so the search started at one
    digit with sixteen further tries does not run out. *)
Fixpoint shortest_from (m : positive) (e : Z) (p : Z) (nd : Z) (fuel : nat)
  : Z * Z :=
  match digits_at m e p nd with
  | Some c => (c, nd)
  | None =>
      match fuel with
      | O => (fst (fraction_of m e) * 10 ^ (nd - p) / snd (fraction_of m e), nd)
      | S fuel' => shortest_from m e p (nd + 1) fuel'
      end
  end.

(** The digits and the decimal point of the shortest decimal: the value
    is [0.d1 d2 ... dn * 10^p]. *)
Definition shortest (m : positive) (e : Z) : string * Z :=
  let p := decpt_of m e in
  let '(c, nd) := shortest_from m e p 1 16 in
  if c =? 10 ^ nd then ("1", p + 1) else (digits_of_Z c, p).

Fixpoint zeros (n : nat) : string :=
  match n with
  | O => EmptyString
  | S n' => String "0"%char (zeros n')
  end.

Definition substring_from (n : nat) (s : string) : string :=
  substring n (String.length s - n) s.

(** The layout of [repr]: exponent form when the decimal point is at
    most [-4] or beyond [16], positional form (always with a point)
    otherwise. *)
Definition layout (ds : string) (p : Z) : string :=
  let n := Z.of_nat (String.length ds) in
  if (p <=? -4) || (16 <? p) then
    let x := p - 1 in
    let xs := digits_of_Z (Z.abs x) in
    let xs := if Z.abs x <? 10 then String "0"%char xs else xs in
    let mant :=
      match ds with
      | String c EmptyString => ds
      | String c t => String c (String "."%char t)
      | EmptyString => ds
      end in
    mant ++ "e" ++ (if x <? 0 then "-" else "+") ++ xs
  else if p <=? 0 then "0." ++ zeros (Z.to_nat (- p)) ++ ds
  else if n <=? p then ds ++ zeros (Z.to_nat (p - n)) ++ ".0"
  else substring 0 (Z.to_nat p) ds ++ "." ++ substring_from (Z.to_nat p) ds.

(** [str(x)] and [repr(x)] *)
Definition to_str (x : float) : string :=
  match x with
  | S754_nan => "nan"
  | S754_infinity s => if s then "-inf" else "inf"
  | S754_zero s => if s then "-0.0" else "0.0"
  | S754_finite s m e =>
      let '(ds, p) := shortest m e in
      (if s then "-" else "") ++ layout ds p
  end.



(** A power function to put for [pow] of the C library: correctly
    rounded for a positive base and an integral exponent, and the NaN
    elsewhere. *)
Definition pow_rounded (x y : float) : float :=
  match x, to_int y with
  | S754_finite false m e, Ok k =>
      if is_integer y then
        let '(n, d) := fraction_of m e in
        if 0 <=? k then of_ratio false (Z.to_pos (n ^ k)) (Z.to_pos (d ^ k))
        else of_ratio false (Z.to_pos (d ^ (- k))) (Z.to_pos (n ^ (- k)))
      else S754_nan
  | _, _ => S754_nan
  end.

End PyFloat.

(** ** The coercers *)

Module Types.
Import PyStr PyInt PyFloat.

(** A number at run time is an [int] or a [float]; a value handed to a
    coercer declared [str | float] is a string or a number. *)
Inductive num : Type :=
| Int (z : Z)
| Float (x : float).

Inductive value : Type :=
| Num (n : num)
| Str (s : string).

(** [str(n)], also the text an f-string puts for [{n}]. *)
Definition num_str (n : num) : string :=
  match n with
  | Int z => digits_of_Z z
  | Float x => to_str x
  end.

Definition fmt (val : value) : string :=
  match val with
  | Num n => num_str n
  | Str s => s
  end.

(** Comparisons of a number with an integer literal.  The literals of
    this file (0, 1, 99999) are floats exactly, so comparing a float
    with the literal's float is the exact comparison Python makes. *)
Definition num_lt (n : num) (k : Z) : bool :=
  match n with
  | Int z => z <? k
  | Float x => ltb x (of_Z k)
  end.

Definition num_le (n : num) (k : Z) : bool :=
  match n with
  | Int z => z <=? k
  | Float x => leb x (of_Z k)
  end.

Definition num_gt (n : num) (k : Z) : bool :=
  match n with
  | Int z => k <? z
  | Float x => ltb (of_Z k) x
  end.

(** [n * k] and [n / k] for a non-zero integer literal [k]. *)
Definition num_mul (n : num) (k : Z) : num :=
  match n with
  | Int z => Int (z * k)
  | Float x => Float (mul x (of_Z k))
  end.

Definition num_div (n : num) (k : Z) : result float :=
  match n with
  | Int z => int_truediv z k
  | Float x => Ok (div x (of_Z k))
  end.

(** [not isinstance(n, int) and not n.is_integer()] *)
Definition not_integral (n : num) : bool :=
  match n with
  | Int _ => false
  | Float x => negb (is_integer x)
  end.

(** [int(n)] *)
Definition num_int (n : num) : result Z :=
  match n with
  | Int z => Ok z
  | Float x => to_int x
  end.

(** [int(z) + x]: the integer operand is converted to a float. *)
Definition int_add_float (z : Z) (x : float) : result float :=
  y <- of_int z ;; Ok (add y x).

Definition comma : ascii := ","%char.
Definition newline : ascii := "010"%char.

(** [_comma_coerce] *)
Definition _comma_coerce (name val : string) (num_args : nat)
  : result (list string) :=
  let vals := split comma (strip val) in
  if (List.length vals <? num_args)%nat then
    Raise (CoerceError ("Too few arguments for " ++ name ++ "."))
  else if (num_args <? List.length vals)%nat then
    Raise (CoerceError ("Too many arguments for " ++ name ++ "."))
  else Ok vals.

Definition NUM_CHARS : list ascii :=
  ["0"; "1"; "2"; "3"; "4"; "5"; "6"; "7"; "8"; "9"; "_"; " "; "."; "-"]%char.

Definition in_NUM_CHARS (c : ascii) : bool := existsb (Ascii.eqb c) NUM_CHARS.

(** [(val[:index], val[index:])] for the [index] the loop of
    [_split_num_str] stops at. *)
Fixpoint split_at_unit (val : string) : string * string :=
  match val with
  | EmptyString => (EmptyString, EmptyString)
  | String c s =>
      if in_NUM_CHARS c
      then let '(n, u) := split_at_unit s in (String c n, u)
      else (EmptyString, val)
  end.

(** [_split_num_str] *)
Definition _split_num_str (val : value) : result (num * string) :=
  match val with
  | Num n => Ok (n, "")
  | Str s =>
      let '(n, unit) := split_at_unit s in
      match of_str n with
      | Ok x => Ok (Float x, unit)
      | Raise ValueError => Raise (CoerceError ("Invalid number: '" ++ s ++ "'"))
      | Raise e => Raise e
      end
  end.

(** [_unit_check] *)
Definition _unit_check (unit : string) (allowed_units : list string)
  : result Datatypes.unit :=
  if mem unit allowed_units then Ok tt
  else Raise (CoerceError ("Unknown unit: '" ++ unit ++ "'")).

(** [natural] *)
Definition natural (val : value) : result Z :=
  ' (n, unit) <- _split_num_str val ;;
  if negb (String.eqb unit "") then
    Raise (CoerceError ("'" ++ fmt val ++ "': Natural does not allow units."))
  else if not_integral n then
    Raise (CoerceError ("'" ++ fmt val ++ "': Natural must be a valid integer."))
  else if num_lt n 0 then
    Raise (CoerceError ("'" ++ fmt val ++ "': Natural cannot be negative."))
  else num_int n.

(** [natural_or_none] *)
Definition natural_or_none (val : option value) : result (option Z) :=
  match val with
  | None => Ok None
  | Some v => n <- natural v ;; Ok (Some n)
  end.

(** [bool_coerce] *)
Definition bool_coerce (val : string) : result bool :=
  if mem val ["#t"; "#true"; "true"] then Ok true
  else if mem val ["#f"; "#false"; "false"] then Ok false
  else Raise (CoerceError ("'" ++ val ++ "': Invalid boolean")).

(** The body of the [try] in the loop of [number]: [int(v)], a
    [ValueError] turned into the coercion error of [val]. *)
Definition int_or_CoerceError (val v : string) : result Z :=
  match int_of_str v with
  | Raise ValueError =>
      Raise (CoerceError
               ("'" ++ val ++ "': Numerator and Denominator must be integers."))
  | r => r
  end.

(** [number] *)
Definition number (val : value) : result num :=
  let tokenized :=
    ' (n, unit) <- _split_num_str val ;;
    if String.eqb unit "%" then x <- num_div n 100 ;; Ok (Float x)
    else _ <- _unit_check unit [""] ;; Ok n in
  match val with
  | Str s =>
      if contains "/"%char s then
        match split "/"%char s with
        | [a; b] =>
            n <- int_or_CoerceError s a ;;
            d <- int_or_CoerceError s b ;;
            if d =? 0 then
              Raise (CoerceError ("'" ++ s ++ "': Denominator must not be zero."))
            else x <- int_truediv n d ;; Ok (Float x)
        | _ => Raise (CoerceError ("'" ++ s ++ "': One divisor allowed."))
        end
      else tokenized
  | Num _ => tokenized
  end.

Definition clamp : float := of_Z 99999.

(** [speed] *)
Definition speed (val : value) : result num :=
  _s <- number val ;;
  if num_le _s 0 || num_gt _s 99999 then Ok (Float clamp) else Ok _s.

(** [db_number] *)
Definition db_number (val : value) : result value :=
  ' (_, unit) <- _split_num_str val ;;
  if String.eqb unit "dB" then Ok val
  else n <- number val ;; Ok (Num n).

(** [src] *)
Definition src (val : string) : result value :=
  match int_of_str val with
  | Ok n => if 0 <? n then Ok (Num (Int n)) else Ok (Str val)
  | Raise ValueError => Ok (Str val)
  | Raise e => Raise e
  end.

(** [threshold] *)
Definition threshold (val : value) : result num :=
  n <- number val ;;
  if num_gt n 1 || num_lt n 0 then
    Raise (CoerceError
             ("'" ++ fmt val ++ "': Threshold must be between 0 and 1 (0%-100%)"))
  else Ok n.

(** [time] *)
Definition time (val : string) : result value :=
  if contains ":"%char val then
    match split ":"%char val with
    | [m; sec] =>
        m <- int_of_str m ;;
        sec <- of_str sec ;;
        t <- int_add_float (m * 60) sec ;;
        Ok (Str (to_str t))
    | [h; m; sec] =>
        h <- int_of_str h ;;
        m <- int_of_str m ;;
        sec <- of_str sec ;;
        t <- int_add_float (h * 3600 + m * 60) sec ;;
        Ok (Str (to_str t))
    | _ => Raise (CoerceError ("'" ++ val ++ "': Invalid time format"))
    end
  else
    ' (n, unit) <- _split_num_str (Str val) ;;
    if mem unit ["s"; "sec"; "secs"; "second"; "seconds"] then
      Ok (Str (num_str n))
    else if mem unit ["m"; "min"; "mins"; "minute"; "minutes"] then
      Ok (Str (num_str (num_mul n 60)))
    else if mem unit ["h"; "hour"; "hours"] then
      Ok (Str (num_str (num_mul n 3600)))
    else
      _ <- _unit_check unit [""] ;;
      if not_integral n then
        Raise (CoerceError
                 ("'" ++ val ++ "': Time specifier expects: integer?."))
      else z <- num_int n ;; Ok (Num (Int z)).

(** [anchor] *)
Definition anchor (val : string) : result string :=
  if negb (mem val ["tl"; "tr"; "bl"; "br"; "ce"]) then
    Raise (CoerceError "Anchor must be: tl tr bl br ce")
  else Ok val.

(** [margin] *)
Definition margin (val : string) : result (value * value) :=
  let vals := split comma (strip val) in
  let vals := match vals with [v] => [v; v] | _ => vals end in
  match vals with
  | [a; b] => x <- time a ;; y <- time b ;; Ok (x, y)
  | _ => Raise (CoerceError "--margin has too many arguments.")
  end.

(** [time_range] *)
Definition time_range (val : string) : result (list string) :=
  _comma_coerce "time_range" val 2.

(** [speed_range] *)
Definition speed_range (val : string) : result (num * string * string) :=
  a <- _comma_coerce "speed_range" val 3 ;;
  match a with
  | [a0; a1; a2] => n <- number (Str a0) ;; Ok (n, a1, a2)
  | _ => Raise (CoerceError "Too few arguments for speed_range.")
         (* not reached: [a] has three elements *)
  end.

(** [align] *)
Definition align (val : string) : result string :=
  if String.eqb val "left" then Ok "left"
  else if String.eqb val "center" then Ok "center"
  else if String.eqb val "right" then Ok "right"
  else Raise (CoerceError "Align must be 'left', 'right', or 'center'").

(** [stream] *)
Definition stream (val : string) : result value :=
  if String.eqb val "all" then Ok (Str "all")
  else n <- natural (Str val) ;; Ok (Num (Int n)).

(** [colormap] *)
Definition colormap : list (string * string) :=
  [
    ("aliceblue", "#f0f8ff"); ("antiquewhite", "#faebd7");
    ("aqua", "#00ffff"); ("aquamarine", "#7fffd4"); ("azure", "#f0ffff");
    ("beige", "#f5f5dc"); ("bisque", "#ffe4c4"); ("black", "#000000");
    ("blanchedalmond", "#ffebcd"); ("blue", "#0000ff");
    ("blueviolet", "#8a2be2"); ("brown", "#a52a2a"); ("burlywood", "#deb887");
    ("cadetblue", "#5f9ea0"); ("chartreuse", "#7fff00");
    ("chocolate", "#d2691e"); ("coral", "#ff7f50");
    ("cornflowerblue", "#6495ed"); ("cornsilk", "#fff8dc");
    ("crimson", "#dc143c"); ("cyan", "#00ffff"); ("darkblue", "#00008b");
    ("darkcyan", "#008b8b"); ("darkgoldenrod", "#b8860b");
    ("darkgray", "#a9a9a9"); ("darkgrey", "#a9a9a9");
    ("darkgreen", "#006400"); ("darkkhaki", "#bdb76b");
    ("darkmagenta", "#8b008b"); ("darkolivegreen", "#556b2f");
    ("darkorange", "#ff8c00"); ("darkorchid", "#9932cc");
    ("darkred", "#8b0000"); ("darksalmon", "#e9967a");
    ("darkseagreen", "#8fbc8f"); ("darkslateblue", "#483d8b");
    ("darkslategray", "#2f4f4f"); ("darkslategrey", "#2f4f4f");
    ("darkturquoise", "#00ced1"); ("darkviolet", "#9400d3");
    ("deeppink", "#ff1493"); ("deepskyblue", "#00bfff");
    ("dimgray", "#696969"); ("dimgrey", "#696969"); ("dodgerblue", "#1e90ff");
    ("firebrick", "#b22222"); ("floralwhite", "#fffaf0");
    ("forestgreen", "#228b22"); ("fuchsia", "#ff00ff");
    ("gainsboro", "#dcdcdc"); ("ghostwhite", "#f8f8ff"); ("gold", "#ffd700");
    ("goldenrod", "#daa520"); ("gray", "#808080"); ("grey", "#808080");
    ("green", "#008000"); ("greenyellow", "#adff2f"); ("honeydew", "#f0fff0");
    ("hotpink", "#ff69b4"); ("indianred", "#cd5c5c"); ("indigo", "#4b0082");
    ("ivory", "#fffff0"); ("khaki", "#f0e68c"); ("lavender", "#e6e6fa");
    ("lavenderblush", "#fff0f5"); ("lawngreen", "#7cfc00");
    ("lemonchiffon", "#fffacd"); ("lightblue", "#add8e6");
    ("lightcoral", "#f08080"); ("lightcyan", "#e0ffff");
    ("lightgoldenrodyellow", "#fafad2"); ("lightgreen", "#90ee90");
    ("lightgray", "#d3d3d3"); ("lightgrey", "#d3d3d3");
    ("lightpink", "#ffb6c1"); ("lightsalmon", "#ffa07a");
    ("lightseagreen", "#20b2aa"); ("lightskyblue", "#87cefa");
    ("lightslategray", "#778899"); ("lightslategrey", "#778899");
    ("lightsteelblue", "#b0c4de"); ("lightyellow", "#ffffe0");
    ("lime", "#00ff00"); ("limegreen", "#32cd32"); ("linen", "#faf0e6");
    ("magenta", "#ff00ff"); ("maroon", "#800000");
    ("mediumaquamarine", "#66cdaa"); ("mediumblue", "#0000cd");
    ("mediumorchid", "#ba55d3"); ("mediumpurple", "#9370db");
    ("mediumseagreen", "#3cb371"); ("mediumslateblue", "#7b68ee");
    ("mediumspringgreen", "#00fa9a"); ("mediumturquoise", "#48d1cc");
    ("mediumvioletred", "#c71585"); ("midnightblue", "#191970");
    ("mintcream", "#f5fffa"); ("mistyrose", "#ffe4e1");
    ("moccasin", "#ffe4b5"); ("navajowhite", "#ffdead"); ("navy", "#000080");
    ("oldlace", "#fdf5e6"); ("olive", "#808000"); ("olivedrab", "#6b8e23");
    ("orange", "#ffa500"); ("orangered", "#ff4500"); ("orchid", "#da70d6");
    ("palegoldenrod", "#eee8aa"); ("palegreen", "#98fb98");
    ("paleturquoise", "#afeeee"); ("palevioletred", "#db7093");
    ("papayawhip", "#ffefd5"); ("peachpuff", "#ffdab9"); ("peru", "#cd853f");
    ("pink", "#ffc0cb"); ("plum", "#dda0dd"); ("powderblue", "#b0e0e6");
    ("purple", "#800080"); ("rebeccapurple", "#663399"); ("red", "#ff0000");
    ("rosybrown", "#bc8f8f"); ("royalblue", "#4169e1");
    ("saddlebrown", "#8b4513"); ("salmon", "#fa8072");
    ("sandybrown", "#f4a460"); ("seagreen", "#2e8b57");
    ("seashell", "#fff5ee"); ("sienna", "#a0522d"); ("silver", "#c0c0c0");
    ("skyblue", "#87ceeb"); ("slateblue", "#6a5acd");
    ("slategray", "#708090"); ("slategrey", "#708090"); ("snow", "#fffafa");
    ("springgreen", "#00ff7f"); ("steelblue", "#4682b4"); ("tan", "#d2b48c");
    ("teal", "#008080"); ("thistle", "#d8bfd8"); ("tomato", "#ff6347");
    ("turquoise", "#40e0d0"); ("violet", "#ee82ee"); ("wheat", "#f5deb3");
    ("white", "#ffffff"); ("whitesmoke", "#f5f5f5"); ("yellow", "#ffff00");
    ("yellowgreen", "#9acd32")
  ].

(** [colormap[key]] when [key in colormap]. *)
Fixpoint lookup (key : string) (m : list (string * string)) : option string :=
  match m with
  | [] => None
  | (k, v) :: m' => if String.eqb key k then Some v else lookup key m'
  end.

Definition is_hex (c : ascii) : bool :=
  let n := code c in is_digit c || ((97 <=? n) && (n <=? 102)).

(** [$]: at the end of the string, or before a newline that ends it. *)
Definition at_end (s : string) : bool :=
  match s with
  | EmptyString => true
  | String c EmptyString => Ascii.eqb c newline
  | _ => false
  end.

Fixpoint hex_then_end (n : nat) (s : string) : bool :=
  match n with
  | O => at_end s
  | S n' =>
      match s with
      | String c t => is_hex c && hex_then_end n' t
      | EmptyString => false
      end
  end.

(** [re.match("#[a-f0-9]{n}$", s)] *)
Definition match_hex (n : nat) (s : string) : bool :=
  match s with
  | String "#"%char t => hex_then_end n t
  | _ => false
  end.

Fixpoint all_hex (s : string) : bool :=
  match s with
  | EmptyString => true
  | String c t => is_hex c && all_hex t
  end.

(** The string the two patterns of [color] are tried on: the input in
    lower case, replaced by the entry of [colormap] when it is a key. *)
Definition resolved (val : string) : string :=
  let color := lower val in
  match lookup color colormap with
  | Some hex => hex
  | None => color
  end.

(** [s[1:]] *)
Definition tail (s : string) : string :=
  match s with
  | EmptyString => EmptyString
  | String _ t => t
  end.

(** [color] *)
Definition color (val : string) : result string :=
  let color := lower val in
  let color := match lookup color colormap with
               | Some hex => hex
               | None => color
               end in
  if match_hex 3 color then Ok ("#" ++ double_each (tail color))
  else if match_hex 6 color then Ok color
  else Raise ValueError.

(** [resolution] *)
Definition resolution (val : option string) : result (option (Z * Z)) :=
  match val with
  | None => Ok None
  | Some s =>
      match split comma (strip s) with
      | [a; b] =>
          x <- natural (Str a) ;; y <- natural (Str b) ;; Ok (Some (x, y))
      | _ => Raise (CoerceError ("'" ++ s ++ "': Resolution takes two numbers"))
      end
  end.

(** [pos] *)
Definition pos (val : value * Z) : result Z :=
  ' (n, unit) <- _split_num_str (fst val) ;;
  if String.eqb unit "%" then
    x <- num_div n 100 ;;
    y <- of_int (snd val) ;;
    round (mul x y)
  else
    _ <- _unit_check unit [""] ;;
    match n with
    | Int z => Ok z
    | Float x => round x
    end.

(** [sample_rate] *)
Definition sample_rate (val : value) : result Z :=
  ' (n, unit) <- _split_num_str val ;;
  if mem unit ["kHz"; "KHz"] then natural (Num (num_mul n 1000))
  else _ <- _unit_check unit [""; "Hz"] ;; natural (Num n).

(** [Fraction]: a numerator and a positive denominator in lowest
    terms. *)
Record Fraction : Type := { numerator : Z; denominator : Z }.

(** [Fraction(n, d)] for two [int]s. *)
Definition Fraction_new (n d : Z) : result Fraction :=
  if d =? 0 then Raise ZeroDivisionError
  else
    let g := Z.gcd n d in
    let g := if d <? 0 then - g else g in
    Ok {| numerator := n / g; denominator := d / g |}.

Section Library.

(** Two functions of the libraries under the interpreter are taken as
    they come: [Fraction(s)] for a string [s], whose grammar differs
    between releases of the standard library, and [pow] of the C
    library, whose last bit differs between platforms. *)
Variable Fraction_of_str : string -> result Fraction.
Variable libm_pow : float -> float -> float.

(** [10 ** y]: the special cases [float.__pow__] settles itself, and
    [pow] otherwise, an infinite result of which is an
    [OverflowError]. *)
Definition pow10 (y : float) : result float :=
  match y with
  | S754_zero _ => Ok (of_Z 1)
  | S754_nan => Ok S754_nan
  | S754_infinity s => Ok (if s then S754_zero false else S754_infinity false)
  | S754_finite _ _ _ => in_range (libm_pow (of_Z 10) y)
  end.

(** [db_threshold] *)
Definition db_threshold (val : value) : result num :=
  ' (n, unit) <- _split_num_str val ;;
  if String.eqb unit "dB" then
    if num_gt n 0 then Raise (CoerceError "dB only goes up to 0")
    else x <- num_div n 20 ;; y <- pow10 x ;; Ok (Float y)
  else threshold val.

(** [frame_rate] *)
Definition frame_rate (val : string) : result Fraction :=
  if String.eqb val "ntsc" then Fraction_new 30000 1001
  else if String.eqb val "ntsc_film" then Fraction_new 24000 1001
  else if String.eqb val "pal" then Ok {| numerator := 25; denominator := 1 |}
  else if String.eqb val "film" then Ok {| numerator := 24; denominator := 1 |}
  else Fraction_of_str val.

End Library.

End Types.

(** * Properties *)

Import PyStr PyInt PyFloat Types.

(** ** The runtime model on examples *)

Example int_of_str_examples :
  map int_of_str [" 1_0 "; "-007"; "+5"; "0"] = [Ok 10; Ok (-7); Ok 5; Ok 0]
  /\ map int_of_str ["1__0"; "_1"; "1_"; "- 1"; ""; " "; "+-1"; "1.0"; "1e3"]
     = repeat (Raise ValueError) 9.
Proof. split; reflexivity. Qed.

Example to_str_examples :
  map (fun s => x <- of_str s ;; Ok (to_str x))
      ["90"; "0.1"; "1e16"; "1e-5"; ".5"; "-0"; "1_0.2_5"; "inf"; "1e"]
  = [Ok "90.0"; Ok "0.1"; Ok "1e+16"; Ok "1e-05"; Ok "0.5"; Ok "-0.0";
     Ok "10.25"; Ok "inf"; Raise ValueError].
Proof. vm_compute. reflexivity. Qed.

Example lit_examples :
  lit "0.5" = S754_finite false 4503599627370496 (-53)
  /\ lit "0.0" = S754_zero false
  /\ lit "-1.0" = S754_finite true 4503599627370496 (-52)
  /\ map lit ["1.0"; "10.0"; "20.0"; "60.0"; "3600.0"; "99999.0"]
     = map of_Z [1; 10; 20; 60; 3600; 99999].
Proof. repeat split; vm_compute; reflexivity. Qed.

(** ** What the runtime functions raise *)

Lemma int_of_str_raises (s : string) (e : exn) :
  int_of_str s = Raise e -> e = ValueError.
Proof.
  unfold int_of_str.
  destruct (strip_sign (strip_by is_num_space s)) as [neg body].
  destruct body as [|c body'].
  - congruence.
  - destruct (run_go (String c body') 0 0 false) as [[v n]|]; congruence.
Qed.

Lemma of_str_raises (s : string) (e : exn) :
  of_str s = Raise e -> e = ValueError.
Proof.
  unfold of_str.
  destruct (strip_sign (strip_by is_num_space s)) as [neg body].
  destruct (mem (lower body) ["inf"; "infinity"]); [congruence|].
  destruct (String.eqb (lower body) "nan"); [congruence|].
  destruct (parse_decimal body) as [[D E]|]; congruence.
Qed.

(** The tokenizer gives a float for a string, and fails with a
    [CoerceError] only. *)
Lemma _split_num_str_Str (s : string) :
  (exists x, _split_num_str (Str s) = Ok (Float x, snd (split_at_unit s))
             /\ of_str (fst (split_at_unit s)) = Ok x)
  \/ _split_num_str (Str s) = Raise (CoerceError ("Invalid number: '" ++ s ++ "'")).
Proof.
  unfold _split_num_str.
  destruct (split_at_unit s) as [n u]; simpl.
  destruct (of_str n) as [x|e] eqn:E.
  - left. exists x. split; reflexivity.
  - right. apply of_str_raises in E. subst e. reflexivity.
Qed.

Lemma _split_num_str_Str_Ok (s : string) (n : num) (u : string) :
  _split_num_str (Str s) = Ok (n, u) -> exists x, n = Float x.
Proof.
  destruct (_split_num_str_Str s) as [[x [H _]]|H]; rewrite H; intros E.
  - exists x. congruence.
  - discriminate.
Qed.

(** ** Splitting *)

Lemma split_length (c : ascii) (s : string) :
  List.length (split c s) = S (count c s).
Proof.
  induction s as [|d s IH]; simpl; [reflexivity|].
  destruct (Ascii.eqb d c); simpl.
  - now rewrite IH.
  - destruct (split c s) as [|p ps]; simpl in *; [discriminate IH | exact IH].
Qed.

Lemma contains_count (c : ascii) (s : string) :
  contains c s = false <-> count c s = O.
Proof.
  induction s as [|d s IH]; simpl; [tauto|].
  destruct (Ascii.eqb d c); simpl; [split; discriminate | exact IH].
Qed.

Lemma split_without (c : ascii) (s : string) :
  contains c s = false -> split c s = [s].
Proof.
  induction s as [|d s IH]; simpl; [reflexivity|].
  destruct (Ascii.eqb d c); simpl; [discriminate|].
  intros H. rewrite (IH H). reflexivity.
Qed.

(** ** [natural], [number] and [threshold] on their own results *)

Lemma magnitude_nonneg (m : positive) (e : Z) :
  0 <= (if 0 <=? e then Zpos m * 2 ^ e else Zpos m / 2 ^ (- e)).
Proof.
  destruct (0 <=? e) eqn:He.
  - apply Z.mul_nonneg_nonneg; [lia | apply Z.pow_nonneg; lia].
  - apply Z.leb_gt in He.
    apply Z.div_pos; [lia | apply Z.pow_pos_nonneg; lia].
Qed.

Lemma to_int_nonneg (x : float) (n : Z) :
  ltb x (of_Z 0) = false -> to_int x = Ok n -> 0 <= n.
Proof.
  destruct x as [s|s| |s m e]; intros L E; try discriminate E.
  - injection E as <-. lia.
  - assert (s = false) as ->.
    { destruct s; [cbv in L; discriminate L | reflexivity]. }
    assert (n = if 0 <=? e then Zpos m * 2 ^ e else Zpos m / 2 ^ (- e)) as ->.
    { unfold to_int in E. congruence. }
    apply magnitude_nonneg.
Qed.

Lemma natural_Ok_nonneg (val : value) (n : Z) :
  natural val = Ok n -> 0 <= n.
Proof.
  unfold natural.
  destruct (_split_num_str val) as [[k u]|e]; simpl; [|discriminate].
  destruct (negb (String.eqb u "")); [discriminate|].
  destruct (not_integral k); [discriminate|].
  destruct (num_lt k 0) eqn:L; [discriminate|].
  destruct k as [z|x]; simpl in *.
  - intros E. injection E as <-. apply Z.ltb_ge in L. exact L.
  - now apply to_int_nonneg.
Qed.

Lemma natural_Int (n : Z) : 0 <= n -> natural (Num (Int n)) = Ok n.
Proof.
  intros H. unfold natural. simpl.
  apply Z.ltb_ge in H. rewrite H. reflexivity.
Qed.

Lemma number_Num (r : num) : number (Num r) = Ok r.
Proof. reflexivity. Qed.

(** C9. Feeding the result of [natural], [number] or [threshold] back
    into the same coercer succeeds and gives the same value. *)
Theorem coercers_idempotent :
  (forall val n, natural val = Ok n -> natural (Num (Int n)) = Ok n)
  /\ (forall val r, number val = Ok r -> number (Num r) = Ok r)
  /\ (forall val r, threshold val = Ok r -> threshold (Num r) = Ok r).
Proof.
  split; [|split].
  - intros val n H. apply natural_Int. exact (natural_Ok_nonneg val n H).
  - intros val r _. apply number_Num.
  - intros val r. unfold threshold. rewrite number_Num.
    destruct (number val) as [k|e]; simpl; [|discriminate].
    destruct (num_gt k 1 || num_lt k 0) eqn:B; [discriminate|].
    intros E. injection E as <-. rewrite B. reflexivity.
Qed.

Lemma coercers_idempotent_witness :
  natural (Num (Int 42)) = Ok 42
  /\ number (Num (Float (of_decimal false 5 (-1))))
     = Ok (Float (of_decimal false 5 (-1)))
  /\ threshold (Num (Float (of_decimal false 5 (-1))))
     = Ok (Float (of_decimal false 5 (-1))).
Proof.
  destruct coercers_idempotent as [H1 [H2 H3]]. split; [|split].
  - apply (H1 (Str "42")). reflexivity.
  - apply (H2 (Str "1/2")). reflexivity.
  - apply (H3 (Str "50%")). reflexivity.
Defined.

(** ** [number] *)

Lemma int_or_CoerceError_Ok (val v : string) (n : Z) :
  int_of_str v = Ok n -> int_or_CoerceError val v = Ok n.
Proof. unfold int_or_CoerceError. now intros ->. Qed.

Lemma int_or_CoerceError_fails (val v : string) :
  fails (int_of_str v) ->
  int_or_CoerceError val v
  = Raise (CoerceError
             ("'" ++ val ++ "': Numerator and Denominator must be integers.")).
Proof.
  intros [e H]. unfold int_or_CoerceError. rewrite H.
  apply int_of_str_raises in H. subst e. reflexivity.
Qed.

Lemma int_or_CoerceError_cases (val v : string) :
  (exists n, int_or_CoerceError val v = Ok n)
  \/ int_or_CoerceError val v
     = Raise (CoerceError
                ("'" ++ val ++ "': Numerator and Denominator must be integers.")).
Proof.
  destruct (int_of_str v) as [n|e] eqn:E.
  - left. exists n. now apply int_or_CoerceError_Ok.
  - right. apply int_or_CoerceError_fails. now exists e.
Qed.

Lemma number_fraction (s a b : string) :
  contains "/"%char s = true -> split "/"%char s = [a; b] ->
  number (Str s)
  = (n <- int_or_CoerceError s a ;;
     d <- int_or_CoerceError s b ;;
     if d =? 0 then
       Raise (CoerceError ("'" ++ s ++ "': Denominator must not be zero."))
     else x <- int_truediv n d ;; Ok (Float x)).
Proof. intros C S. unfold number. rewrite C, S. reflexivity. Qed.

Lemma number_tokenized (s : string) (x : float) (unit : string) :
  contains "/"%char s = false -> _split_num_str (Str s) = Ok (Float x, unit) ->
  number (Str s)
  = if String.eqb unit "%" then Ok (Float (div x (of_Z 100)))
    else _ <- _unit_check unit [""] ;; Ok (Float x).
Proof.
  intros C T. unfold number. rewrite C, T. simpl.
  destruct (String.eqb unit "%"); reflexivity.
Qed.

(** C2. On a string with a slash [number] reads a fraction: it fails
    unless there is exactly one slash, fails unless both sides read as
    integers, fails on a zero denominator, and otherwise the result is
    the quotient of the two integers as a float (true division, so
    ["1/2"] gives 0.5).  On a string without a slash the unit [%]
    divides the numeric prefix by 100, the empty unit returns it, and
    every other unit fails. *)
Theorem number_spec :
  (forall s, contains "/"%char s = true ->
     (count "/"%char s <> 1%nat ->
      number (Str s) = Raise (CoerceError ("'" ++ s ++ "': One divisor allowed.")))
     /\ (count "/"%char s = 1%nat ->
         exists a b, split "/"%char s = [a; b]
         /\ (fails (int_of_str a) \/ fails (int_of_str b) ->
             number (Str s)
             = Raise (CoerceError
                        ("'" ++ s
                         ++ "': Numerator and Denominator must be integers.")))
         /\ (forall n, int_of_str a = Ok n -> int_of_str b = Ok 0 ->
             number (Str s)
             = Raise (CoerceError
                        ("'" ++ s ++ "': Denominator must not be zero.")))
         /\ (forall n d, int_of_str a = Ok n -> int_of_str b = Ok d -> d <> 0 ->
             number (Str s) = (x <- int_truediv n d ;; Ok (Float x)))))
  /\ (forall s x unit,
        contains "/"%char s = false ->
        _split_num_str (Str s) = Ok (Float x, unit) ->
        (unit = "%" -> number (Str s) = Ok (Float (div x (of_Z 100))))
        /\ (unit = "" -> number (Str s) = Ok (Float x))
        /\ (unit <> "%" -> unit <> "" ->
            number (Str s)
            = Raise (CoerceError ("Unknown unit: '" ++ unit ++ "'"))))
  /\ number (Str "1/2") = Ok (Float (lit "0.5"))
  /\ number (Str "1/0")
     = Raise (CoerceError "'1/0': Denominator must not be zero.")
  /\ number (Str "50%") = Ok (Float (lit "0.5")).
Proof.
  split; [|split; [|repeat split; reflexivity]].
  - intros s C. split.
    + intros N. unfold number. rewrite C.
      pose proof (split_length "/"%char s) as L.
      destruct (split "/"%char s) as [|a [|b [|c l]]]; try reflexivity.
      simpl in L. congruence.
    + intros N.
      pose proof (split_length "/"%char s) as L. rewrite N in L.
      destruct (split "/"%char s) as [|a [|b [|c l]]] eqn:S; try discriminate L.
      exists a, b. split; [reflexivity|].
      rewrite (number_fraction s a b C S). repeat split.
      * intros [F|F].
        -- now rewrite (int_or_CoerceError_fails s a F).
        -- rewrite (int_or_CoerceError_fails s b F).
           destruct (int_or_CoerceError_cases s a) as [[n ->]| ->]; reflexivity.
      * intros n A B.
        rewrite (int_or_CoerceError_Ok s a n A), (int_or_CoerceError_Ok s b 0 B).
        reflexivity.
      * intros n d A B D.
        rewrite (int_or_CoerceError_Ok s a n A), (int_or_CoerceError_Ok s b d B).
        simpl. apply Z.eqb_neq in D. rewrite D. reflexivity.
  - intros s x unit C T. rewrite (number_tokenized s x unit C T). repeat split.
    + intros ->. reflexivity.
    + intros ->. reflexivity.
    + intros P E. apply String.eqb_neq in P. rewrite P.
      unfold _unit_check, mem. simpl.
      apply String.eqb_neq in E. rewrite E. reflexivity.
Qed.

Lemma number_spec_witness :
  number (Str " 3 /-4") = Ok (Float (lit "-0.75"))
  /\ number (Str "2.5 %") = Ok (Float (lit "0.025"))
  /\ number (Str "1/2/3") = Raise (CoerceError "'1/2/3': One divisor allowed.").
Proof.
  destruct number_spec as [F [T _]]. split; [|split].
  - destruct (F " 3 /-4" eq_refl) as [_ H].
    destruct (H eq_refl) as [a [b [S [_ [_ D]]]]].
    injection S as <- <-.
    rewrite (D 3 (-4)); [reflexivity | reflexivity | reflexivity | lia].
  - destruct (T "2.5 %" (lit "2.5") "%" eq_refl eq_refl) as [H _].
    rewrite (H eq_refl). reflexivity.
  - destruct (F "1/2/3" eq_refl) as [H _]. apply H. simpl. lia.
Defined.

(** ** [speed] and [threshold] *)

Lemma speed_cases (val : value) (r : num) :
  number val = Ok r ->
  speed val
  = if num_le r 0 || num_gt r 99999 then Ok (Float (lit "99999.0")) else Ok r.
Proof. intros H. unfold speed. rewrite H. reflexivity. Qed.

Lemma threshold_cases (val : value) (r : num) :
  number val = Ok r ->
  threshold val
  = if num_gt r 1 || num_lt r 0
    then Raise (CoerceError
                  ("'" ++ fmt val
                   ++ "': Threshold must be between 0 and 1 (0%-100%)"))
    else Ok r.
Proof. intros H. unfold threshold. rewrite H. reflexivity. Qed.

(** C3. [speed] clamps and does not fail: when [number] gives a result
    that is at most 0 or greater than 99999, [speed] returns 99999.0,
    and any other result of [number] is returned as it is.
    [threshold], on the same result of [number], fails with the range
    error when the result is greater than 1 or less than 0. *)
Theorem speed_clamps_threshold_rejects :
  (forall val r, number val = Ok r ->
     num_le r 0 = true \/ num_gt r 99999 = true ->
     speed val = Ok (Float (lit "99999.0")))
  /\ (forall val r, number val = Ok r ->
      num_le r 0 = false -> num_gt r 99999 = false ->
      speed val = Ok r)
  /\ speed (Str "0") = Ok (Float (lit "99999.0"))
  /\ speed (Str "-5") = Ok (Float (lit "99999.0"))
  /\ speed (Str "100000") = Ok (Float (lit "99999.0"))
  /\ speed (Str "2") = Ok (Float (lit "2.0"))
  /\ (forall val r, number val = Ok r ->
      num_gt r 1 = true \/ num_lt r 0 = true ->
      threshold val
      = Raise (CoerceError
                 ("'" ++ fmt val
                  ++ "': Threshold must be between 0 and 1 (0%-100%)")))
  /\ (forall val r, number val = Ok r ->
      num_gt r 1 = false -> num_lt r 0 = false ->
      threshold val = Ok r)
  /\ threshold (Str "1.5")
     = Raise (CoerceError
                "'1.5': Threshold must be between 0 and 1 (0%-100%)")
  /\ threshold (Str "50%") = Ok (Float (lit "0.5")).
Proof.
  repeat split; try reflexivity.
  - intros val r H B. rewrite (speed_cases val r H).
    apply orb_true_iff in B. rewrite B. reflexivity.
  - intros val r H B1 B2. rewrite (speed_cases val r H), B1, B2. reflexivity.
  - intros val r H B. rewrite (threshold_cases val r H).
    apply orb_true_iff in B. rewrite B. reflexivity.
  - intros val r H B1 B2. rewrite (threshold_cases val r H), B1, B2.
    reflexivity.
Qed.

Lemma speed_clamps_threshold_rejects_witness :
  speed (Str "-1/3") = Ok (Float (lit "99999.0"))
  /\ speed (Str "150%") = Ok (Float (lit "1.5"))
  /\ threshold (Str "3/2")
     = Raise (CoerceError
                "'3/2': Threshold must be between 0 and 1 (0%-100%)")
  /\ threshold (Str "0.25") = Ok (Float (lit "0.25")).
Proof.
  destruct speed_clamps_threshold_rejects
    as [S1 [S2 [_ [_ [_ [_ [T1 [T2 _]]]]]]]].
  split; [|split; [|split]].
  - apply (S1 (Str "-1/3") (Float (lit "-0.3333333333333333"))).
    + reflexivity.
    + left. reflexivity.
  - apply (S2 (Str "150%") (Float (lit "1.5"))); reflexivity.
  - apply (T1 (Str "3/2") (Float (lit "1.5"))).
    + reflexivity.
    + left. reflexivity.
  - apply (T2 (Str "0.25") (Float (lit "0.25"))); reflexivity.
Defined.

(** ** [src] *)

(** C10. [src] returns the integer when the whole string reads as an
    integer greater than 0, and the string as it is in every other
    case (a string that is no integer, a negative integer, zero); it
    never raises.  So [src("0")] is the string ["0"]. *)
Theorem src_spec :
  (forall val n, int_of_str val = Ok n -> 0 < n -> src val = Ok (Num (Int n)))
  /\ (forall val, ~ (exists n, int_of_str val = Ok n /\ 0 < n) ->
      src val = Ok (Str val))
  /\ (forall val, exists v, src val = Ok v)
  /\ src "0" = Ok (Str "0")
  /\ src "-3" = Ok (Str "-3")
  /\ src "abc" = Ok (Str "abc")
  /\ src "12" = Ok (Num (Int 12)).
Proof.
  repeat split; try reflexivity.
  - intros val n H Hn. unfold src. rewrite H.
    apply Z.ltb_lt in Hn. rewrite Hn. reflexivity.
  - intros val H. unfold src.
    destruct (int_of_str val) as [n|e] eqn:E.
    + destruct (0 <? n) eqn:Hn; [|reflexivity].
      exfalso. apply H. exists n. split; [reflexivity|now apply Z.ltb_lt].
    + apply int_of_str_raises in E. subst e. reflexivity.
  - intros val. unfold src.
    destruct (int_of_str val) as [n|e] eqn:E.
    + destruct (0 <? n); eexists; reflexivity.
    + apply int_of_str_raises in E. subst e. eexists; reflexivity.
Qed.

Lemma src_spec_witness :
  src " 7 " = Ok (Num (Int 7)) /\ src "0x" = Ok (Str "0x").
Proof.
  destruct src_spec as [H1 [H2 _]]. split.
  - apply (H1 " 7 " 7); [reflexivity | lia].
  - apply (H2 "0x"). intros [n [H _]]. vm_compute in H. discriminate.
Defined.

(** ** [db_threshold] *)



Section DbThreshold.

Variable libm_pow : float -> float -> float.

Lemma db_threshold_cases (s : string) (x : float) (unit : string) :
  _split_num_str (Str s) = Ok (Float x, unit) ->
  db_threshold libm_pow (Str s)
  = if String.eqb unit "dB" then
      if ltb (lit "0.0") x then Raise (CoerceError "dB only goes up to 0")
      else y <- pow10 libm_pow (div x (lit "20.0")) ;; Ok (Float y)
    else threshold (Str s).
Proof. intros T. unfold db_threshold. rewrite T. reflexivity. Qed.


End DbThreshold.



(** ** [frame_rate] *)

(** C5. The four preset names, in lower case only, give the exact
    rationals 30000/1001, 24000/1001, 25/1 and 24/1; every other string
    is handed to [Fraction], whose result or failure is the result of
    [frame_rate]. *)
Theorem frame_rate_spec (Fraction_of_str : string -> result Fraction) :
  frame_rate Fraction_of_str "ntsc"
  = Ok {| numerator := 30000; denominator := 1001 |}
  /\ frame_rate Fraction_of_str "ntsc_film"
     = Ok {| numerator := 24000; denominator := 1001 |}
  /\ frame_rate Fraction_of_str "pal" = Ok {| numerator := 25; denominator := 1 |}
  /\ frame_rate Fraction_of_str "film" = Ok {| numerator := 24; denominator := 1 |}
  /\ (forall val, mem val ["ntsc"; "ntsc_film"; "pal"; "film"] = false ->
      frame_rate Fraction_of_str val = Fraction_of_str val)
  /\ frame_rate Fraction_of_str "NTSC" = Fraction_of_str "NTSC"
  /\ frame_rate Fraction_of_str "Film" = Fraction_of_str "Film".
Proof.
  repeat split.
  intros val H. unfold mem in H. simpl in H.
  repeat (apply orb_false_iff in H; destruct H as [? H]).
  unfold frame_rate.
  repeat match goal with E : String.eqb _ _ = false |- _ => rewrite E; clear E end.
  reflexivity.
Qed.

Lemma frame_rate_spec_witness :
  frame_rate (fun _ => Raise ValueError) "30" = Raise ValueError.
Proof.
  destruct (frame_rate_spec (fun _ => Raise ValueError)) as [_ [_ [_ [_ [H _]]]]].
  apply (H "30"). reflexivity.
Defined.

(** ** [time] *)

Ltac mem_cases H :=
  unfold mem in H; simpl in H;
  repeat match type of H with
         | (_ || _)%bool = true =>
             apply orb_true_iff in H; destruct H as [H|H]
         end;
  try discriminate H;
  apply String.eqb_eq in H; subst.

Lemma is_integer_to_int (x : float) :
  is_integer x = true -> exists z, to_int x = Ok z.
Proof.
  destruct x as [s|s| |s m e]; try discriminate; intros _; eexists; reflexivity.
Qed.

Lemma time_colon2 (val m sec : string) (mz : Z) (sx : float) :
  contains ":"%char val = true -> split ":"%char val = [m; sec] ->
  int_of_str m = Ok mz -> of_str sec = Ok sx ->
  time val = (t <- int_add_float (mz * 60) sx ;; Ok (Str (to_str t))).
Proof.
  intros C S M X. unfold time. rewrite C, S, M, X. reflexivity.
Qed.

Lemma time_colon3 (val h m sec : string) (hz mz : Z) (sx : float) :
  contains ":"%char val = true -> split ":"%char val = [h; m; sec] ->
  int_of_str h = Ok hz -> int_of_str m = Ok mz -> of_str sec = Ok sx ->
  time val
  = (t <- int_add_float (hz * 3600 + mz * 60) sx ;; Ok (Str (to_str t))).
Proof.
  intros C S H M X. unfold time. rewrite C, S, H, M, X. reflexivity.
Qed.

Lemma time_colon_other (val : string) :
  contains ":"%char val = true ->
  List.length (split ":"%char val) <> 2%nat ->
  List.length (split ":"%char val) <> 3%nat ->
  time val = Raise (CoerceError ("'" ++ val ++ "': Invalid time format")).
Proof.
  intros C N2 N3. unfold time. rewrite C.
  destruct (split ":"%char val) as [|a [|b [|c [|d l]]]]; try reflexivity.
  - now elim N2.
  - now elim N3.
Qed.

Lemma time_unit (val : string) (x : float) (unit : string) :
  contains ":"%char val = false ->
  _split_num_str (Str val) = Ok (Float x, unit) ->
  (mem unit ["s"; "sec"; "secs"; "second"; "seconds"] = true ->
   time val = Ok (Str (to_str x)))
  /\ (mem unit ["m"; "min"; "mins"; "minute"; "minutes"] = true ->
      time val = Ok (Str (to_str (mul x (lit "60.0")))))
  /\ (mem unit ["h"; "hour"; "hours"] = true ->
      time val = Ok (Str (to_str (mul x (lit "3600.0")))))
  /\ (unit = "" -> is_integer x = true ->
      exists z, to_int x = Ok z /\ time val = Ok (Num (Int z)))
  /\ (unit = "" -> is_integer x = false ->
      time val
      = Raise (CoerceError
                 ("'" ++ val ++ "': Time specifier expects: integer?."))).
Proof.
  intros C T. unfold time. rewrite C, T. repeat split.
  - intros H. mem_cases H; reflexivity.
  - intros H. mem_cases H; reflexivity.
  - intros H. mem_cases H; reflexivity.
  - intros -> I. destruct (is_integer_to_int x I) as [z Z].
    exists z. split; [exact Z|]. simpl. rewrite I. simpl. rewrite Z.
    reflexivity.
  - intros -> I. simpl. rewrite I. reflexivity.
Qed.

(** C4. [time] returns a numeric string for the colon and the unit
    forms and an integer for a bare number.  With a colon, two parts
    are minutes and seconds, three parts are hours, minutes and
    seconds, and the sum in seconds is returned as the text of a
    float; any other number of parts fails.  Without a colon, the units
    of seconds, minutes and hours return the text of the number times
    1, 60 and 3600; with no unit the number has to be integral and
    comes back as an integer. *)
Theorem time_spec :
  (forall val m sec mz sx,
     contains ":"%char val = true -> split ":"%char val = [m; sec] ->
     int_of_str m = Ok mz -> of_str sec = Ok sx ->
     time val = (t <- int_add_float (mz * 60) sx ;; Ok (Str (to_str t))))
  /\ (forall val h m sec hz mz sx,
      contains ":"%char val = true -> split ":"%char val = [h; m; sec] ->
      int_of_str h = Ok hz -> int_of_str m = Ok mz -> of_str sec = Ok sx ->
      time val
      = (t <- int_add_float (hz * 3600 + mz * 60) sx ;; Ok (Str (to_str t))))
  /\ (forall val,
      contains ":"%char val = true ->
      List.length (split ":"%char val) <> 2%nat ->
      List.length (split ":"%char val) <> 3%nat ->
      time val = Raise (CoerceError ("'" ++ val ++ "': Invalid time format")))
  /\ (forall val x unit,
      contains ":"%char val = false ->
      _split_num_str (Str val) = Ok (Float x, unit) ->
      (mem unit ["s"; "sec"; "secs"; "second"; "seconds"] = true ->
       time val = Ok (Str (to_str x)))
      /\ (mem unit ["m"; "min"; "mins"; "minute"; "minutes"] = true ->
          time val = Ok (Str (to_str (mul x (lit "60.0")))))
      /\ (mem unit ["h"; "hour"; "hours"] = true ->
          time val = Ok (Str (to_str (mul x (lit "3600.0")))))
      /\ (unit = "" -> is_integer x = true ->
          exists z, to_int x = Ok z /\ time val = Ok (Num (Int z)))
      /\ (unit = "" -> is_integer x = false ->
          time val
          = Raise (CoerceError
                     ("'" ++ val ++ "': Time specifier expects: integer?."))))
  /\ time "1:30" = Ok (Str "90.0")
  /\ time "1:01:01" = Ok (Str "3661.0")
  /\ time "5s" = Ok (Str "5.0")
  /\ time "5" = Ok (Num (Int 5)).
Proof.
  split; [exact time_colon2|].
  split; [exact time_colon3|].
  split; [exact time_colon_other|].
  split; [exact time_unit|].
  repeat split; vm_compute; reflexivity.
Qed.

Lemma time_spec_witness :
  time "2:0.5" = Ok (Str "120.5")
  /\ time "1:2:3" = Ok (Str "3723.0")
  /\ time "1:2:3:4" = Raise (CoerceError "'1:2:3:4': Invalid time format")
  /\ time "1.5min" = Ok (Str "90.0")
  /\ time "12" = Ok (Num (Int 12)).
Proof.
  destruct time_spec as [C2 [C3 [CO [U _]]]].
  split; [|split; [|split; [|split]]].
  - rewrite (C2 "2:0.5" "2" "0.5" 2 (lit "0.5")); reflexivity.
  - rewrite (C3 "1:2:3" "1" "2" "3" 1 2 (lit "3")); reflexivity.
  - apply CO; [reflexivity | simpl; lia | simpl; lia].
  - destruct (U "1.5min" (lit "1.5") "min" eq_refl eq_refl) as [_ [M _]].
    rewrite (M eq_refl). vm_compute. reflexivity.
  - destruct (U "12" (lit "12") "" eq_refl eq_refl) as [_ [_ [_ [I _]]]].
    destruct (I eq_refl eq_refl) as [z [Z ->]].
    vm_compute in Z. congruence.
Defined.

(** ** [margin] *)

Section Strip.

Variable sp : ascii -> bool.

Lemma lstrip_by_length (s : string) :
  (String.length (lstrip_by sp s) <= String.length s)%nat.
Proof.
  induction s as [|c s IH]; simpl; [lia|].
  destruct (sp c); simpl; lia.
Qed.

Lemma rstrip_by_length (s : string) :
  (String.length (rstrip_by sp s) <= String.length s)%nat.
Proof.
  induction s as [|c s IH]; simpl; [lia|].
  destruct (rstrip_by sp s); [destruct (sp c)|]; simpl in *; lia.
Qed.

Lemma lstrip_by_fixed (c : ascii) (s : string) :
  lstrip_by sp (String c s) = String c s -> sp c = false.
Proof.
  simpl. destruct (sp c); [|reflexivity].
  intros H. pose proof (lstrip_by_length s) as L.
  rewrite H in L. simpl in L. lia.
Qed.

Lemma strip_by_fixed (s : string) :
  strip_by sp s = s -> lstrip_by sp s = s /\ rstrip_by sp s = s.
Proof.
  unfold strip_by. intros H.
  assert (lstrip_by sp s = s) as L.
  { destruct s as [|c s]; [reflexivity|].
    simpl in *. destruct (sp c); [|reflexivity].
    pose proof (rstrip_by_length (lstrip_by sp s)) as R.
    pose proof (lstrip_by_length s) as L.
    rewrite H in R. simpl in R. lia. }
  split; [exact L|]. now rewrite L in H.
Qed.

Lemma lstrip_by_app (s u : string) :
  s <> "" -> lstrip_by sp s = s -> lstrip_by sp (s ++ u) = s ++ u.
Proof.
  destruct s as [|c s]; [congruence|].
  intros _ H. apply lstrip_by_fixed in H. simpl. now rewrite H.
Qed.

Lemma rstrip_by_app (s u : string) :
  u <> "" -> rstrip_by sp u = u -> rstrip_by sp (s ++ u) = s ++ u.
Proof.
  intros N H. induction s as [|c s IH]; simpl; [exact H|].
  rewrite IH. destruct (s ++ u) eqn:E; [|reflexivity].
  destruct s; simpl in E; congruence.
Qed.

End Strip.

Lemma append_assoc (a b c : string) : (a ++ b) ++ c = a ++ (b ++ c).
Proof. induction a as [|x a IH]; simpl; [reflexivity | now rewrite IH]. Qed.

Lemma split_app_sep (c : ascii) (t u : string) :
  contains c t = false -> split c (t ++ String c u) = t :: split c u.
Proof.
  induction t as [|d t IH]; simpl.
  - intros _. now rewrite Ascii.eqb_refl.
  - destruct (Ascii.eqb d c); simpl; [discriminate|].
    intros H. now rewrite (IH H).
Qed.

(** A token without a comma and without white space around it comes
    back from [strip] and [split] once when given alone, and twice when
    given joined to itself. *)
Lemma strip_split_single (t : string) :
  contains comma t = false -> strip t = t -> split comma (strip t) = [t].
Proof. intros C S. rewrite S. now apply split_without. Qed.

Lemma strip_split_joined (t : string) :
  contains comma t = false -> strip t = t ->
  split comma (strip (t ++ "," ++ t)) = [t; t].
Proof.
  intros C S.
  assert (strip (t ++ "," ++ t) = t ++ "," ++ t) as ->.
  { destruct t as [|c t]; [reflexivity|].
    destruct (strip_by_fixed is_space _ S) as [L R].
    assert (String c t <> "") as N by discriminate.
    unfold strip, strip_by.
    rewrite (lstrip_by_app is_space _ ("," ++ String c t) N L).
    rewrite <- append_assoc.
    apply (rstrip_by_app is_space _ _ N R). }
  change ("," ++ t) with (String comma t).
  rewrite (split_app_sep comma t t C), (split_without comma t C).
  reflexivity.
Qed.

(** C8, as the claim states it, fails: white space at the end of a
    token is stripped when the token stands alone and kept in the
    first component when the token is joined to itself. *)
Lemma margin_joined_differs :
  contains comma "5s " = false
  /\ margin "5s " = Ok (Str "5.0", Str "5.0")
  /\ margin ("5s " ++ "," ++ "5s ") = Raise (CoerceError "Unknown unit: 's '")
  /\ ~ (forall t, contains comma t = false -> margin t = margin (t ++ "," ++ t)).
Proof.
  split; [reflexivity|].
  split; [vm_compute; reflexivity|].
  split; [vm_compute; reflexivity|].
  intros H. specialize (H "5s " eq_refl). vm_compute in H. discriminate H.
Qed.

(** C8, amended. [margin] strips the white space around its input and
    splits it at the commas.  One component is used for both
    positions, so for a token [t] without a comma and without white
    space at its ends, [margin(t)] is [margin(t + "," + t)]; three
    components or more fail; each of the two components goes through
    [time], the first one first. *)
Theorem margin_spec :
  (forall t, contains comma t = false -> strip t = t ->
     margin t = margin (t ++ "," ++ t))
  /\ margin "3" = margin "3,3"
  /\ (forall val a, split comma (strip val) = [a] ->
      margin val = (x <- time a ;; y <- time a ;; Ok (x, y)))
  /\ (forall val a b, split comma (strip val) = [a; b] ->
      margin val = (x <- time a ;; y <- time b ;; Ok (x, y)))
  /\ (forall val, (2 < List.length (split comma (strip val)))%nat ->
      margin val = Raise (CoerceError "--margin has too many arguments.")).
Proof.
  split; [|split; [|split; [|split]]].
  - intros t C S. unfold margin.
    rewrite (strip_split_single t C S), (strip_split_joined t C S).
    reflexivity.
  - vm_compute. reflexivity.
  - intros val a H. unfold margin. rewrite H. reflexivity.
  - intros val a b H. unfold margin. rewrite H. reflexivity.
  - intros val H. unfold margin.
    destruct (split comma (strip val)) as [|a [|b [|c l]]]; simpl in H;
      try lia; reflexivity.
Qed.

Lemma margin_spec_witness :
  margin "1:30" = margin "1:30,1:30"
  /\ margin " 2s, 4 " = Ok (Str "2.0", Num (Int 4))
  /\ margin "1,2,3" = Raise (CoerceError "--margin has too many arguments.").
Proof.
  destruct margin_spec as [J [_ [_ [P M]]]]. split; [|split].
  - apply (J "1:30"); reflexivity.
  - rewrite (P " 2s, 4 " "2s" " 4"); reflexivity.
  - apply M. simpl. lia.
Defined.

(** ** [color] on input without a newline *)

Lemma hex_then_end_iff (n : nat) (t : string) :
  contains newline t = false ->
  hex_then_end n t = true <-> (String.length t = n /\ all_hex t = true).
Proof.
  revert t. induction n as [|n IH]; intros t N; simpl.
  - destruct t as [|c [|d t]]; simpl in *.
    + tauto.
    + apply orb_false_iff in N. destruct N as [N _]. rewrite N.
      split; [discriminate | intros [H _]; discriminate H].
    + split; [discriminate | intros [H _]; discriminate H].
  - destruct t as [|c t]; simpl in *.
    + split; [discriminate | intros [H _]; discriminate H].
    + apply orb_false_iff in N. destruct N as [_ N].
      rewrite !andb_true_iff, (IH t N). intuition lia.
Qed.

Lemma match_hex_iff (n : nat) (s : string) :
  contains newline s = false ->
  match_hex n s = true
  <-> exists h, s = String "#"%char h /\ String.length h = n /\ all_hex h = true.
Proof.
  intros N. unfold match_hex. destruct s as [|c t].
  - split; [discriminate | intros [h [H _]]; discriminate H].
  - simpl in N. apply orb_false_iff in N. destruct N as [_ N].
    destruct (Ascii.eqb_spec c "#"%char) as [->|C].
    + rewrite (hex_then_end_iff n t N). split.
      * intros H. now exists t.
      * intros [h [E H]]. now injection E as <-.
    + assert (match c with
              | "#"%char => hex_then_end n t
              | _ => false
              end = false) as ->.
      { destruct c as [[] [] [] [] [] [] [] []]; try reflexivity. now elim C. }
      split; [discriminate | intros [h [E _]]; congruence].
Qed.

Lemma lower_char_newline (c : ascii) :
  Ascii.eqb (lower_char c) newline = Ascii.eqb c newline.
Proof. destruct c as [[] [] [] [] [] [] [] []]; reflexivity. Qed.

Lemma lower_newline (s : string) :
  contains newline (lower s) = contains newline s.
Proof.
  induction s as [|c s IH]; simpl; [reflexivity|].
  now rewrite lower_char_newline, IH.
Qed.

Lemma lookup_newline (m : list (string * string)) (key hex : string) :
  forallb (fun kv => negb (contains newline (snd kv))) m = true ->
  lookup key m = Some hex -> contains newline hex = false.
Proof.
  induction m as [|[k v] m IH]; simpl; [discriminate|].
  intros H. apply andb_true_iff in H. destruct H as [V H].
  destruct (String.eqb key k).
  - intros E. injection E as <-. now apply negb_true_iff.
  - now apply IH.
Qed.

Lemma resolved_newline (val : string) :
  contains newline val = false -> contains newline (resolved val) = false.
Proof.
  intros N. unfold resolved.
  destruct (lookup (lower val) colormap) as [hex|] eqn:L.
  - apply (lookup_newline colormap (lower val) hex); [reflexivity | exact L].
  - now rewrite lower_newline.
Qed.

(** X15. On an input without a newline [color] does what the docstring
    says: [#] and three hexadecimal digits are doubled into six, [#]
    and six pass, everything else is invalid. *)
Lemma color_without_newline (val : string) :
  contains newline val = false ->
  (forall h, resolved val = String "#"%char h ->
     String.length h = 3%nat -> all_hex h = true ->
     color val = Ok (String "#"%char (double_each h))
     /\ String.length (double_each h) = 6%nat)
  /\ (forall h, resolved val = String "#"%char h ->
      String.length h = 6%nat -> all_hex h = true ->
      color val = Ok (resolved val))
  /\ ((forall h, resolved val = String "#"%char h -> all_hex h = true ->
       String.length h <> 3%nat /\ String.length h <> 6%nat) ->
      color val = Raise ValueError).
Proof.
  intros N. apply resolved_newline in N.
  assert (color val
          = if match_hex 3 (resolved val)
            then Ok ("#" ++ double_each (tail (resolved val)))
            else if match_hex 6 (resolved val) then Ok (resolved val)
                 else Raise ValueError) as -> by reflexivity.
  pose proof (match_hex_iff 3 _ N) as M3.
  pose proof (match_hex_iff 6 _ N) as M6.
  split; [|split].
  - intros h E L H.
    assert (match_hex 3 (resolved val) = true) as -> by (apply M3; now exists h).
    rewrite E. split; [reflexivity|].
    destruct h as [|a [|b [|c [|d h]]]]; try discriminate L. reflexivity.
  - intros h E L H.
    assert (match_hex 6 (resolved val) = true) as -> by (apply M6; now exists h).
    destruct (match_hex 3 (resolved val)); [|reflexivity].
    destruct (proj1 M3 eq_refl) as [h' [E' [L' _]]].
    rewrite E in E'. injection E' as <-. congruence.
  - intros H.
    destruct (match_hex 3 (resolved val)).
    { destruct (proj1 M3 eq_refl) as [h [E [L A]]].
      destruct (H h E A) as [X _]. now elim X. }
    destruct (match_hex 6 (resolved val)); [|reflexivity].
    destruct (proj1 M6 eq_refl) as [h [E [L A]]].
    destruct (H h E A) as [_ X]. now elim X.
Qed.

(** ** [color] *)

(** C6. [color] on the examples of the specification, and on a string
    that is neither [#] and three hexadecimal digits nor [#] and six:
    with a newline after the digits the pattern still matches, the
    newline is doubled like a digit in the short form and passed on in
    the long form. *)
Theorem color_trailing_newline :
  color "red" = Ok "#ff0000"
  /\ color "#3AE" = Ok "#33aaee"
  /\ color "#zzz" = Raise ValueError
  /\ color ("#abc" ++ String newline "")
     = Ok ("#aabbcc" ++ String newline (String newline ""))
  /\ color ("#AABBCC" ++ String newline "")
     = Ok ("#aabbcc" ++ String newline "").
Proof. repeat split; vm_compute; reflexivity. Qed.

(** ** Coercers that fail with a [CoerceError] only *)

Lemma only_CoerceError_bind {A B : Type} (r : result A) (k : A -> result B) :
  only_CoerceError r -> (forall a, r = Ok a -> only_CoerceError (k a)) ->
  only_CoerceError (bind r k).
Proof.
  intros H K e. destruct r as [a|e']; simpl.
  - now apply K.
  - intros E. apply H. congruence.
Qed.

Lemma only_CoerceError_Ok {A : Type} (a : A) : only_CoerceError (Ok a).
Proof. intros e H. discriminate H. Qed.

Lemma only_CoerceError_Raise {A : Type} (msg : string) :
  only_CoerceError (@Raise A (CoerceError msg)).
Proof. intros e H. injection H as <-. now exists msg. Qed.

Create HintDb coerce.

#[local] Hint Resolve only_CoerceError_Ok only_CoerceError_Raise : coerce.

Lemma _split_num_str_only (val : value) : only_CoerceError (_split_num_str val).
Proof.
  destruct val as [n|s]; [apply only_CoerceError_Ok|].
  destruct (_split_num_str_Str s) as [[x [-> _]]| ->]; auto with coerce.
Qed.

Lemma _unit_check_only (unit : string) (allowed : list string) :
  only_CoerceError (_unit_check unit allowed).
Proof. unfold _unit_check. destruct (mem unit allowed); auto with coerce. Qed.

Lemma natural_only (val : value) : only_CoerceError (natural val).
Proof.
  unfold natural. apply only_CoerceError_bind; [apply _split_num_str_only|].
  intros [n u] _. cbv beta iota.
  destruct (negb (String.eqb u "")); auto with coerce.
  destruct (not_integral n) eqn:I; auto with coerce.
  destruct (num_lt n 0); auto with coerce.
  destruct n as [z|x]; simpl; auto with coerce.
  apply negb_false_iff in I.
  destruct (is_integer_to_int x I) as [z ->]. auto with coerce.
Qed.

#[local] Hint Resolve _split_num_str_only _unit_check_only natural_only : coerce.

(** X16. Where every failure is a [CoerceError]: the tokenizer, the
    unit check and the coercers built from them without a call that can
    raise something else. *)
Lemma coercers_with_CoerceError_only :
  (forall val, only_CoerceError (natural val))
  /\ (forall val, only_CoerceError (natural_or_none val))
  /\ (forall val, only_CoerceError (bool_coerce val))
  /\ (forall val, only_CoerceError (sample_rate val))
  /\ (forall val, only_CoerceError (anchor val))
  /\ (forall val, only_CoerceError (align val))
  /\ (forall val, only_CoerceError (stream val))
  /\ (forall val, only_CoerceError (resolution val))
  /\ (forall val, only_CoerceError (time_range val)).
Proof.
  repeat split; intros val.
  - auto with coerce.
  - destruct val as [v|]; simpl; auto with coerce.
    apply only_CoerceError_bind; auto with coerce.
  - unfold bool_coerce.
    repeat match goal with |- context [if ?b then _ else _] => destruct b end;
      auto with coerce.
  - unfold sample_rate. apply only_CoerceError_bind; auto with coerce.
    intros [n u] _. cbv beta iota.
    destruct (mem u ["kHz"; "KHz"]); auto with coerce.
    apply only_CoerceError_bind; auto with coerce.
  - unfold anchor.
    destruct (negb (mem val ["tl"; "tr"; "bl"; "br"; "ce"])); auto with coerce.
  - unfold align.
    repeat match goal with |- context [if ?b then _ else _] => destruct b end;
      auto with coerce.
  - unfold stream. destruct (String.eqb val "all"); auto with coerce.
    apply only_CoerceError_bind; auto with coerce.
  - destruct val as [v|]; simpl; auto with coerce.
    destruct (split comma (strip v)) as [|a [|b [|c l]]]; auto with coerce.
    apply only_CoerceError_bind; auto with coerce. intros x _.
    apply only_CoerceError_bind; auto with coerce.
  - unfold time_range, _comma_coerce.
    repeat match goal with |- context [if ?b then _ else _] => destruct b end;
      auto with coerce.
Qed.

(** ** The kinds of failure *)

(** C1. Failures that are no [CoerceError]: [color] raises a
    [ValueError] of its own, [time] lets the [ValueError] of [int] and
    of [float] through, [number] lets the [OverflowError] of the
    division through, [pos] the one of [round], and [frame_rate] hands
    on whatever [Fraction] raises. *)
Theorem failures_other_than_CoerceError :
  color "#zzz" = Raise ValueError
  /\ color "" = Raise ValueError
  /\ time "a:b" = Raise ValueError
  /\ time "1:x" = Raise ValueError
  /\ time "1:2:" = Raise ValueError
  /\ number (Str ("1" ++ zeros 400 ++ "/1")) = Raise OverflowError
  /\ pos (Str ("1" ++ zeros 400), 1) = Raise OverflowError
  /\ (forall Fraction_of_str,
      frame_rate Fraction_of_str "abc" = Fraction_of_str "abc")
  /\ ~ only_CoerceError (color "#zzz")
  /\ ~ only_CoerceError (time "a:b").
Proof.
  assert (color "#zzz" = Raise ValueError) as C by (vm_compute; reflexivity).
  assert (time "a:b" = Raise ValueError) as T by (vm_compute; reflexivity).
  repeat match goal with |- _ /\ _ => split end;
    try (vm_compute; reflexivity).
  - intros H. destruct (H ValueError C) as [msg E]. discriminate E.
  - intros H. destruct (H ValueError T) as [msg E]. discriminate E.
Qed.

(** * Further properties *)

(** ** Strings of digits *)

Lemma all_chars_impl (p q : ascii -> bool) (s : string) :
  (forall c, p c = true -> q c = true) ->
  all_chars p s = true -> all_chars q s = true.
Proof.
  intros I. induction s as [|c s IH]; simpl; [reflexivity|].
  intros H. apply andb_true_iff in H. destruct H as [H1 H2].
  now rewrite (I c H1), (IH H2).
Qed.

Lemma all_chars_app (p : ascii -> bool) (s t : string) :
  all_chars p (s ++ t) = all_chars p s && all_chars p t.
Proof.
  induction s as [|c s IH]; simpl; [reflexivity|].
  now rewrite IH, andb_assoc.
Qed.

Lemma lstrip_by_none (sp : ascii -> bool) (s : string) :
  all_chars (fun c => negb (sp c)) s = true -> lstrip_by sp s = s.
Proof.
  destruct s as [|c s]; simpl; [reflexivity|].
  intros H. apply andb_true_iff in H. destruct H as [H _].
  apply negb_true_iff in H. now rewrite H.
Qed.

Lemma rstrip_by_none (sp : ascii -> bool) (s : string) :
  all_chars (fun c => negb (sp c)) s = true -> rstrip_by sp s = s.
Proof.
  induction s as [|c s IH]; simpl; [reflexivity|].
  intros H. apply andb_true_iff in H. destruct H as [H1 H2].
  rewrite (IH H2). apply negb_true_iff in H1. rewrite H1.
  destruct s; reflexivity.
Qed.

Lemma strip_by_none (sp : ascii -> bool) (s : string) :
  all_chars (fun c => negb (sp c)) s = true -> strip_by sp s = s.
Proof.
  intros H. unfold strip_by. rewrite (lstrip_by_none sp s H).
  now apply rstrip_by_none.
Qed.

Lemma contains_all_chars (c : ascii) (p : ascii -> bool) (s : string) :
  p c = false -> all_chars p s = true -> contains c s = false.
Proof.
  intros P. induction s as [|d s IH]; simpl; [reflexivity|].
  intros H. apply andb_true_iff in H. destruct H as [H1 H2].
  rewrite (IH H2), orb_false_r.
  destruct (Ascii.eqb_spec d c) as [->|]; [congruence | reflexivity].
Qed.

Ltac by_cases_on_char c :=
  destruct c as [[] [] [] [] [] [] [] []]; try discriminate; try reflexivity.

Lemma is_digit_not_num_space (c : ascii) :
  is_digit c = true -> negb (is_num_space c) = true.
Proof. by_cases_on_char c. Qed.

Lemma is_digit_not_space (c : ascii) :
  is_digit c = true -> negb (is_space c) = true.
Proof. by_cases_on_char c. Qed.

Lemma is_digit_in_NUM_CHARS (c : ascii) :
  is_digit c = true -> in_NUM_CHARS c = true.
Proof. by_cases_on_char c. Qed.

Lemma is_digit_lower (c : ascii) : is_digit c = true -> lower_char c = c.
Proof. by_cases_on_char c. Qed.

Lemma strip_sign_digit (c : ascii) (s : string) :
  is_digit c = true -> strip_sign (String c s) = (false, String c s).
Proof. by_cases_on_char c. Qed.

Lemma digits_of_uint (u : Decimal.uint) :
  all_chars is_digit (NilEmpty.string_of_uint u) = true.
Proof. induction u; simpl; auto. Qed.

Lemma run_go_uint (u : Decimal.uint) (acc k : Z) (b : bool) :
  u <> Decimal.Nil \/ b = true ->
  run_go (NilEmpty.string_of_uint u) acc k b
  = Some (uint_value u acc, k + Z.of_nat (Decimal.nb_digits u)).
Proof.
  revert acc k b. induction u; intros acc k b H.
  1: { destruct H as [H| ->]; [now elim H|]. simpl. f_equal. f_equal. lia. }
  all: cbn [NilEmpty.string_of_uint run_go uint_value Decimal.nb_digits];
    match goal with
    | |- context [is_digit ?c] => change (is_digit c) with true
    end;
    cbv iota; rewrite IHu by (now right); f_equal; f_equal; lia.
Qed.

Lemma uint_value_pos (u : Decimal.uint) (acc : positive) :
  uint_value u (Zpos acc) = Zpos (Pos.of_uint_acc u acc).
Proof.
  revert acc. induction u; intros acc;
    cbn [uint_value Pos.of_uint_acc]; [reflexivity|..].
  all: rewrite <- IHu; f_equal; lia.
Qed.

Lemma uint_value_0 (u : Decimal.uint) :
  uint_value u 0 = Z.of_N (Pos.of_uint u).
Proof.
  induction u; cbn [uint_value Pos.of_uint]; [reflexivity | exact IHu |..].
  all: apply uint_value_pos.
Qed.

Lemma to_uint_not_Nil (p : positive) : Pos.to_uint p <> Decimal.Nil.
Proof.
  intros H. pose proof (Unsigned.of_to p) as E. rewrite H in E. discriminate E.
Qed.

Lemma to_uint_value (p : positive) : uint_value (Pos.to_uint p) 0 = Zpos p.
Proof. now rewrite uint_value_0, Unsigned.of_to. Qed.

(** The text of a positive integer: digits only, not empty, and read
    back by the digit loop as the integer. *)
Lemma str_of_pos (p : positive) :
  exists c t,
    str_of_int (Zpos p) = String c t
    /\ all_chars is_digit (String c t) = true
    /\ run_go (String c t) 0 0 false
       = Some (Zpos p, Z.of_nat (Decimal.nb_digits (Pos.to_uint p)))
    /\ str_of_int (Zneg p) = String "-"%char (String c t).
Proof.
  pose proof (to_uint_not_Nil p) as N.
  pose proof (digits_of_uint (Pos.to_uint p)) as D.
  pose proof (run_go_uint (Pos.to_uint p) 0 0 false (or_introl N)) as R.
  rewrite to_uint_value in R.
  unfold str_of_int, Z.to_int, NilZero.string_of_int, NilZero.string_of_uint.
  destruct (Pos.to_uint p) eqn:E; [now elim N|..].
  all: cbn [NilEmpty.string_of_uint] in *; eexists; eexists;
    repeat split; try reflexivity; assumption.
Qed.

Lemma str_of_pos_digits (p : positive) :
  (0 < Decimal.nb_digits (Pos.to_uint p))%nat.
Proof.
  pose proof (to_uint_not_Nil p) as N.
  destruct (Pos.to_uint p); simpl; [now elim N|..]; lia.
Qed.



(** ** Integers that are floats exactly *)

Lemma iter_xO_Z (k p : positive) :
  Zpos (Pos.iter xO p k) = Zpos p * 2 ^ Zpos k.
Proof.
  induction k as [|k IH] using Pos.peano_ind.
  - simpl. lia.
  - rewrite Pos.iter_succ, Pos2Z.inj_succ, Z.pow_succ_r by lia.
    rewrite Pos2Z.inj_xO, IH. lia.
Qed.

Lemma iter_xO_digits (k p : positive) :
  digits2_pos (Pos.iter xO p k) = (digits2_pos p + k)%positive.
Proof.
  induction k as [|k IH] using Pos.peano_ind.
  - simpl. lia.
  - rewrite Pos.iter_succ. cbn [digits2_pos]. rewrite IH. lia.
Qed.

Lemma digits2_bound (p : positive) (n : Z) :
  Zpos p < 2 ^ n -> 0 <= n -> Zpos (digits2_pos p) <= n.
Proof.
  revert n. induction p as [p IH|p IH|]; intros n H N; cbn [digits2_pos].
  - assert (n <> 0) by (intros ->; simpl in H; lia).
    replace n with (Z.succ (n - 1)) in H by lia.
    rewrite Z.pow_succ_r in H by lia.
    specialize (IH (n - 1)). lia.
  - assert (n <> 0) by (intros ->; simpl in H; lia).
    replace n with (Z.succ (n - 1)) in H by lia.
    rewrite Z.pow_succ_r in H by lia.
    specialize (IH (n - 1)). lia.
  - assert (n <> 0) by (intros ->; simpl in H; lia). lia.
Qed.

(** A mantissa that already has its exponent is left as it is. *)
Lemma binary_round_aux_canonical (s : bool) (m : positive) (e : Z) :
  fexp prec emax (Zpos (digits2_pos m) + e) = e -> e <= 971 ->
  binary_round_aux prec emax s (Zpos m) e loc_Exact = S754_finite s m e.
Proof.
  intros F E. unfold binary_round_aux, shr_fexp.
  cbn [Zdigits2 shr_record_of_loc]. rewrite F, Z.sub_diag.
  cbn [shr shr_m loc_of_shr_record round_nearest_even Zdigits2].
  rewrite F, Z.sub_diag. cbn [shr shr_m shr_record_of_loc].
  apply Z.leb_le in E. unfold emax, prec.
  change (1024 - 53) with 971. now rewrite E.
Qed.

(** An integer below [2^53] is rounded to itself. *)
Lemma binary_round_small (s : bool) (p : positive) :
  Zpos p < 2 ^ 53 ->
  exists m e,
    binary_round prec emax s p 0 = S754_finite s m e
    /\ e <= 0 /\ Zpos m = Zpos p * 2 ^ (- e).
Proof.
  intros H. pose proof (digits2_bound p 53 H ltac:(lia)) as D.
  unfold binary_round.
  assert (fexp prec emax (Zpos (digits2_pos p) + 0)
          = Zpos (digits2_pos p) - 53) as F.
  { unfold fexp, emin, emax, prec. lia. }
  rewrite F. unfold shl_align.
  destruct (Zpos (digits2_pos p) - 53 - 0) as [|k|k] eqn:K; try lia.
  - exists p, 0. split; [|split; [lia | simpl; lia]].
    apply binary_round_aux_canonical; [|lia].
    unfold fexp, emin, emax, prec. lia.
  - exists (Pos.iter xO p k), (Zpos (digits2_pos p) - 53).
    split; [|split; [lia|]].
    + apply binary_round_aux_canonical; [|lia].
      rewrite iter_xO_digits. unfold fexp, emin, emax, prec. lia.
    + rewrite iter_xO_Z. f_equal. f_equal. lia.
Qed.

Lemma exact_to_int (s : bool) (m p : positive) (e : Z) :
  e <= 0 -> Zpos m = Zpos p * 2 ^ (- e) ->
  to_int (S754_finite s m e) = Ok (if s then Zneg p else Zpos p)
  /\ is_integer (S754_finite s m e) = true.
Proof.
  intros E M. unfold to_int, is_integer. rewrite M.
  assert (0 < 2 ^ (- e)) as P by (apply Z.pow_pos_nonneg; lia).
  rewrite Z.mod_mul, Z.div_mul by lia. rewrite orb_true_r.
  split; [|reflexivity].
  destruct (0 <=? e) eqn:L.
  - apply Z.leb_le in L. assert (e = 0) as -> by lia.
    destruct s; simpl; rewrite !Pos.mul_1_r; reflexivity.
  - destruct s; reflexivity.
Qed.

Lemma str_of_int_NUM_CHARS (z : Z) :
  all_chars in_NUM_CHARS (str_of_int z) = true.
Proof.
  destruct z as [|p|p]; [reflexivity|..];
    destruct (str_of_pos p) as [c [t [E [D [_ E']]]]].
  - rewrite E. apply (all_chars_impl is_digit); [|exact D].
    apply is_digit_in_NUM_CHARS.
  - rewrite E'.
    change (all_chars in_NUM_CHARS (String "-"%char (String c t)))
      with (all_chars in_NUM_CHARS (String c t)).
    apply (all_chars_impl is_digit); [|exact D].
    apply is_digit_in_NUM_CHARS.
Qed.

Lemma split_at_unit_all (s : string) :
  all_chars in_NUM_CHARS s = true -> split_at_unit s = (s, "").
Proof.
  induction s as [|c s IH]; cbn [split_at_unit all_chars]; [reflexivity|].
  intros H. apply andb_true_iff in H. destruct H as [H1 H2].
  rewrite H1, (IH H2). reflexivity.
Qed.

Lemma span_run_digits (s : string) :
  all_chars is_digit s = true -> span_run s = (s, "").
Proof.
  induction s as [|c s IH]; cbn [span_run all_chars]; [reflexivity|].
  intros H. apply andb_true_iff in H. destruct H as [H1 H2].
  rewrite H1, (IH H2). reflexivity.
Qed.

Lemma lower_digits (s : string) : all_chars is_digit s = true -> lower s = s.
Proof.
  induction s as [|c s IH]; simpl; [reflexivity|].
  intros H. apply andb_true_iff in H. destruct H as [H1 H2].
  now rewrite (is_digit_lower c H1), (IH H2).
Qed.

Lemma digit_not_special (c : ascii) (t : string) :
  is_digit c = true ->
  mem (String c t) ["inf"; "infinity"] = false
  /\ String.eqb (String c t) "nan" = false.
Proof.
  intros H. unfold mem. cbn [existsb String.eqb].
  assert (Ascii.eqb c "i" = false) as -> by (revert H; by_cases_on_char c).
  assert (Ascii.eqb c "n" = false) as -> by (revert H; by_cases_on_char c).
  split; reflexivity.
Qed.

Lemma of_str_digits (neg : bool) (c : ascii) (t : string) (v n : Z) :
  all_chars is_digit (String c t) = true ->
  run_go (String c t) 0 0 false = Some (v, n) -> n <> 0 ->
  of_str (if neg then String "-"%char (String c t) else String c t)
  = Ok (of_decimal neg v 0).
Proof.
  intros D R N. unfold of_str.
  assert (all_chars (fun c => negb (is_num_space c)) (String c t) = true) as S.
  { apply (all_chars_impl is_digit); [apply is_digit_not_num_space | exact D]. }
  assert (is_digit c = true) as C.
  { simpl in D. now apply andb_true_iff in D. }
  assert (strip_sign
            (strip_by is_num_space
               (if neg then String "-"%char (String c t) else String c t))
          = (neg, String c t)) as ->.
  { destruct neg.
    - rewrite strip_by_none by (simpl; simpl in S; exact S). reflexivity.
    - now rewrite (strip_by_none _ _ S), (strip_sign_digit c t C). }
  rewrite (lower_digits _ D).
  destruct (digit_not_special c t C) as [-> ->].
  unfold parse_decimal. rewrite (span_run_digits _ D).
  cbn [run_value]. rewrite R.
  assert ((n + 0 =? 0) = false) as -> by (apply Z.eqb_neq; lia).
  f_equal. f_equal. lia.
Qed.

(** [float(str(z))] for an integer [z] is the float nearest to [z]. *)
Lemma of_str_of_int (z : Z) :
  of_str (str_of_int z)
  = Ok match z with
       | Z0 => S754_zero false
       | Zpos p => binary_round prec emax false p 0
       | Zneg p => binary_round prec emax true p 0
       end.
Proof.
  destruct z as [|p|p]; [reflexivity|..];
    destruct (str_of_pos p) as [c [t [E [D [R E']]]]];
    pose proof (str_of_pos_digits p) as N.
  - rewrite E, (of_str_digits false c t _ _ D R) by lia.
    unfold of_decimal. simpl. now rewrite Pos.mul_1_r.
  - rewrite E', (of_str_digits true c t _ _ D R) by lia.
    unfold of_decimal. simpl. now rewrite Pos.mul_1_r.
Qed.

Lemma str_of_int_no (c : ascii) (z : Z) :
  in_NUM_CHARS c = false -> contains c (str_of_int z) = false.
Proof.
  intros H. apply (contains_all_chars c in_NUM_CHARS); [exact H|].
  apply str_of_int_NUM_CHARS.
Qed.

(** The tokenizer on the text of an integer: the float nearest to it,
    and no unit. *)
Lemma _split_num_str_of_int (z : Z) :
  _split_num_str (Str (str_of_int z)) = Ok (Float (of_Z z), "").
Proof.
  unfold _split_num_str.
  rewrite (split_at_unit_all _ (str_of_int_NUM_CHARS z)), of_str_of_int.
  destruct z; reflexivity.
Qed.

Lemma of_Z_small (z : Z) :
  - 2 ^ 53 < z < 2 ^ 53 ->
  to_int (of_Z z) = Ok z
  /\ is_integer (of_Z z) = true
  /\ ltb (of_Z z) (of_Z 0) = (z <? 0).
Proof.
  intros H. destruct z as [|p|p]; [repeat split|..].
  - destruct (binary_round_small false p) as [m [e [B [E M]]]]; [lia|].
    unfold of_Z, binary_normalize. rewrite B.
    destruct (exact_to_int false m p e E M) as [T I].
    repeat split; assumption.
  - destruct (binary_round_small true p) as [m [e [B [E M]]]]; [lia|].
    unfold of_Z, binary_normalize. rewrite B.
    destruct (exact_to_int true m p e E M) as [T I].
    repeat split; assumption.
Qed.

(** ** [natural], [time], [src] and [number] on the text of an integer *)

Lemma natural_small_text (n : Z) :
  0 <= n < 2 ^ 53 -> natural (Str (str_of_int n)) = Ok n.
Proof.
  intros H. unfold natural. rewrite _split_num_str_of_int.
  destruct (of_Z_small n) as [T [I L]]; [lia|].
  cbn [bind String.eqb negb not_integral num_lt num_int].
  rewrite I, L. cbn [negb].
  assert ((n <? 0) = false) as -> by (apply Z.ltb_ge; lia). exact T.
Qed.

Lemma time_small_text (n : Z) :
  - 2 ^ 53 < n < 2 ^ 53 -> time (str_of_int n) = Ok (Num (Int n)).
Proof.
  intros H. unfold time.
  rewrite (str_of_int_no ":"%char n eq_refl), _split_num_str_of_int.
  destruct (of_Z_small n H) as [T [I _]].
  cbn [bind mem existsb String.eqb orb _unit_check not_integral num_int].
  rewrite I, T. reflexivity.
Qed.

(** X1. For an integer [n] with [0 <= n < 2^53], [natural(str(n))] is
    [n]; a negative [n] above [-2^53] is refused as negative.  The
    bound is there because the text is read as a float: the text of
    [2^53 + 1] gives [2^53]. *)
Theorem natural_of_text :
  (forall n, 0 <= n < 2 ^ 53 -> natural (Str (str_of_int n)) = Ok n)
  /\ (forall n, - 2 ^ 53 < n < 0 ->
      natural (Str (str_of_int n))
      = Raise (CoerceError
                 ("'" ++ str_of_int n ++ "': Natural cannot be negative.")))
  /\ natural (Str (str_of_int (2 ^ 53 + 1))) = Ok (2 ^ 53).
Proof.
  split; [exact natural_small_text|]. split.
  - intros n H. unfold natural. rewrite _split_num_str_of_int.
    destruct (of_Z_small n) as [T [I L]]; [lia|].
    cbn [bind String.eqb negb not_integral num_lt num_int fmt].
    rewrite I, L. cbn [negb].
    assert ((n <? 0) = true) as -> by (apply Z.ltb_lt; lia). reflexivity.
  - vm_compute. reflexivity.
Qed.

Lemma natural_of_text_witness :
  natural (Str (str_of_int 1080)) = Ok 1080
  /\ natural (Str (str_of_int (-3)))
     = Raise (CoerceError "'-3': Natural cannot be negative.").
Proof.
  destruct natural_of_text as [P [N _]]. split.
  - apply P. lia.
  - apply (N (-3)). lia.
Defined.

(** X2. For an integer [n] with [|n| < 2^53], [time(str(n))] is the
    integer [n] itself, negative ones included: a bare number is not
    checked for its sign. *)
Theorem time_of_text (n : Z) :
  - 2 ^ 53 < n < 2 ^ 53 -> time (str_of_int n) = Ok (Num (Int n)).
Proof. exact (time_small_text n). Qed.

Lemma time_of_text_witness :
  time (str_of_int (-90)) = Ok (Num (Int (-90))).
Proof. apply time_of_text. lia. Defined.


Lemma join_two_no_sep (c : ascii) (a b : string) :
  contains c a = false -> contains c b = false ->
  contains c (a ++ String c b) = true
  /\ split c (a ++ String c b) = [a; b].
Proof.
  intros A B. split.
  - clear B. induction a as [|d a IH]; simpl.
    + now rewrite Ascii.eqb_refl.
    + simpl in A. apply orb_false_iff in A. destruct A as [-> A]. now apply IH.
  - now rewrite (split_app_sep c a b A), (split_without c b B).
Qed.


(** ** No NaN out of a string *)

Lemma shr_1_nonneg (mrs : shr_record) :
  0 <= shr_m mrs -> 0 <= shr_m (shr_1 mrs).
Proof.
  destruct mrs as [m r t]. cbn [shr_m].
  destruct m as [|[p|p|]|[p|p|]]; simpl; lia.
Qed.

Lemma iter_pos_inv {A : Type} (P : A -> Prop) (f : A -> A) :
  (forall x, P x -> P (f x)) -> forall p x, P x -> P (iter_pos f p x).
Proof.
  intros F. induction p as [p IH|p IH|]; intros x H; simpl; auto.
Qed.

Lemma shr_fexp_nonneg (m e : Z) (l : location) :
  0 <= m -> 0 <= shr_m (fst (shr_fexp prec emax m e l)).
Proof.
  intros H. unfold shr_fexp, shr.
  assert (0 <= shr_m (shr_record_of_loc m l)) as R.
  { destruct l as [|[]]; exact H. }
  destruct (fexp prec emax (Zdigits2 m + e) - e) as [|p|p]; cbn [fst];
    try exact R.
  apply (iter_pos_inv (fun mrs => 0 <= shr_m mrs)); [apply shr_1_nonneg | exact R].
Qed.

Lemma round_nearest_even_nonneg (m : Z) (l : location) :
  0 <= m -> 0 <= round_nearest_even m l.
Proof.
  intros H. destruct l as [|[]]; simpl; try lia. destruct (Z.even m); lia.
Qed.

Lemma binary_round_aux_not_nan (s : bool) (m e : Z) (l : location) :
  0 <= m -> binary_round_aux prec emax s m e l <> S754_nan.
Proof.
  intros H. unfold binary_round_aux.
  pose proof (shr_fexp_nonneg m e l H) as R1.
  destruct (shr_fexp prec emax m e l) as [mrs' e']. cbn [fst] in R1.
  pose proof (shr_fexp_nonneg
                (round_nearest_even (shr_m mrs') (loc_of_shr_record mrs'))
                e' loc_Exact (round_nearest_even_nonneg _ _ R1)) as R2.
  destruct (shr_fexp prec emax
              (round_nearest_even (shr_m mrs') (loc_of_shr_record mrs'))
              e' loc_Exact) as [mrs'' e'']. cbn [fst] in R2.
  destruct (shr_m mrs'') as [|p|p]; try discriminate; [|lia].
  destruct (e'' <=? emax - prec); discriminate.
Qed.

Lemma div_core_not_nan (s : bool) (m1 m2 : positive) (e1 e2 : Z) :
  (let '(mz, ez, lz) := SFdiv_core_binary prec emax (Zpos m1) e1 (Zpos m2) e2 in
   binary_round_aux prec emax s mz ez lz) <> S754_nan.
Proof.
  unfold SFdiv_core_binary.
  set (e' := Z.min _ _). set (sh := e1 - e2 - e').
  set (m' := match sh with Zpos _ => Z.shiftl (Zpos m1) sh | Z0 => Zpos m1
             | Zneg _ => 0 end).
  assert (0 <= m') as M.
  { unfold m'. destruct sh; try lia. apply Z.shiftl_nonneg. lia. }
  pose proof (Z.div_pos m' (Zpos m2) M ltac:(lia)) as Q.
  unfold Z.div in Q. destruct (Z.div_eucl m' (Zpos m2)) as [q r].
  now apply binary_round_aux_not_nan.
Qed.

Lemma of_ratio_not_nan (s : bool) (n d : positive) :
  of_ratio s n d <> S754_nan.
Proof. apply div_core_not_nan. Qed.

Lemma of_decimal_not_nan (s : bool) (D E : Z) : of_decimal s D E <> S754_nan.
Proof.
  unfold of_decimal. destruct D as [|d|d]; try discriminate.
  destruct (0 <=? E); [|apply of_ratio_not_nan].
  unfold binary_round.
  destruct (shl_align _ _ _) as [mz ez].
  now apply binary_round_aux_not_nan.
Qed.

Lemma div_not_nan (x : float) (k : Z) :
  k <> 0 -> - 2 ^ 53 < k < 2 ^ 53 -> x <> S754_nan -> div x (of_Z k) <> S754_nan.
Proof.
  intros K B X.
  assert (exists s m e, of_Z k = S754_finite s m e) as [s [m [e ->]]].
  { destruct k as [|p|p]; [now elim K|..].
    - destruct (binary_round_small false p) as [m [e [R _]]]; [lia|].
      exists false, m, e. exact R.
    - destruct (binary_round_small true p) as [m [e [R _]]]; [lia|].
      exists true, m, e. exact R. }
  destruct x as [t|t| |t n f]; try discriminate; [now elim X|].
  apply div_core_not_nan.
Qed.

Lemma all_chars_lstrip (p sp : ascii -> bool) (s : string) :
  all_chars p s = true -> all_chars p (lstrip_by sp s) = true.
Proof.
  induction s as [|c s IH]; simpl; [reflexivity|].
  intros H. destruct (sp c); [|exact H].
  apply andb_true_iff in H. now apply IH.
Qed.

Lemma all_chars_rstrip (p sp : ascii -> bool) (s : string) :
  all_chars p s = true -> all_chars p (rstrip_by sp s) = true.
Proof.
  induction s as [|c s IH]; simpl; [reflexivity|].
  intros H. apply andb_true_iff in H. destruct H as [H1 H2].
  specialize (IH H2).
  destruct (rstrip_by sp s) as [|d r].
  - destruct (sp c); simpl; [reflexivity | now rewrite H1].
  - change (all_chars p (String c (String d r)))
      with (p c && all_chars p (String d r)).
    now rewrite H1, IH.
Qed.

Lemma all_chars_strip_sign (p : ascii -> bool) (s : string) :
  all_chars p s = true -> all_chars p (snd (strip_sign s)) = true.
Proof.
  destruct s as [|c t]; [reflexivity|]. intros H.
  assert (all_chars p t = true) as T.
  { simpl in H. now apply andb_true_iff in H. }
  destruct c as [[] [] [] [] [] [] [] []]; first [exact H | exact T].
Qed.

Lemma lower_char_n (c : ascii) :
  in_NUM_CHARS c = true -> Ascii.eqb (lower_char c) "n" = false.
Proof. by_cases_on_char c. Qed.

(** A string of the characters of a number is never read as the NaN. *)
Lemma of_str_not_nan (s : string) (x : float) :
  all_chars in_NUM_CHARS s = true -> of_str s = Ok x -> x <> S754_nan.
Proof.
  intros A. unfold of_str.
  pose proof (all_chars_strip_sign in_NUM_CHARS _
                (all_chars_rstrip _ is_num_space _
                   (all_chars_lstrip _ is_num_space _ A))) as B.
  fold (strip_by is_num_space s) in B.
  destruct (strip_sign (strip_by is_num_space s)) as [neg body].
  cbn [snd] in B.
  destruct (mem (lower body) ["inf"; "infinity"]).
  { intros E. injection E as <-. discriminate. }
  destruct (String.eqb (lower body) "nan") eqn:N.
  { exfalso. destruct body as [|c t]; [discriminate N|].
    cbn [lower String.eqb] in N. cbn [all_chars] in B.
    apply andb_true_iff in B. destruct B as [B _].
    now rewrite (lower_char_n c B) in N. }
  destruct (parse_decimal body) as [[D E]|]; [|discriminate].
  intros H. injection H as <-. apply of_decimal_not_nan.
Qed.

Lemma split_at_unit_prefix (s : string) :
  all_chars in_NUM_CHARS (fst (split_at_unit s)) = true.
Proof.
  induction s as [|c s IH]; cbn [split_at_unit]; [reflexivity|].
  destruct (in_NUM_CHARS c) eqn:C; [|reflexivity].
  destruct (split_at_unit s) as [n u]. cbn [fst all_chars] in *.
  now rewrite C, IH.
Qed.

Lemma _split_num_str_not_nan (s : string) (x : float) (unit : string) :
  _split_num_str (Str s) = Ok (Float x, unit) -> x <> S754_nan.
Proof.
  destruct (_split_num_str_Str s) as [[y [H O]]|H]; rewrite H; intros E.
  - injection E as <- _.
    exact (of_str_not_nan _ _ (split_at_unit_prefix s) O).
  - discriminate E.
Qed.

Lemma in_range_not_nan (x y : float) :
  x <> S754_nan -> in_range x = Ok y -> y <> S754_nan.
Proof. intros X. destruct x; simpl; congruence. Qed.

Lemma int_truediv_not_nan (a b : Z) (x : float) :
  int_truediv a b = Ok x -> x <> S754_nan.
Proof.
  unfold int_truediv. destruct (b =? 0); [discriminate|].
  destruct (Z.abs a) as [|n|n]; try (intros E; injection E as <-; discriminate).
  destruct (Z.abs b) as [|d|d]; try (intros E; injection E as <-; discriminate).
  apply in_range_not_nan, of_ratio_not_nan.
Qed.

(** [number] on a string returns a float, and never the NaN. *)
Lemma number_Str_float (s : string) (r : num) :
  number (Str s) = Ok r -> exists x, r = Float x /\ x <> S754_nan.
Proof.
  destruct (contains "/"%char s) eqn:C.
  - unfold number. rewrite C.
    destruct (split "/"%char s) as [|a [|b [|c l]]]; try discriminate.
    destruct (int_or_CoerceError s a) as [n|e]; [|discriminate].
    destruct (int_or_CoerceError s b) as [d|e]; [|discriminate].
    cbn [bind]. destruct (d =? 0); [discriminate|].
    destruct (int_truediv n d) as [x|e] eqn:D; [|discriminate].
    intros E. injection E as <-. exists x. split; [reflexivity|].
    exact (int_truediv_not_nan n d x D).
  - destruct (_split_num_str_Str s) as [[x [T _]]|T].
    + pose proof (_split_num_str_not_nan s x _ T) as X.
      rewrite (number_tokenized s x _ C T).
      destruct (String.eqb (snd (split_at_unit s)) "%").
      * intros E. injection E as <-. eexists. split; [reflexivity|].
        apply (div_not_nan x 100); [lia | lia | exact X].
      * destruct (_unit_check _ _); [|discriminate].
        intros E. injection E as <-. now exists x.
    + unfold number. rewrite C, T. discriminate.
Qed.

(** ** The order of the floats *)

Lemma SFcompare_antisym (x y : float) :
  SFcompare y x = option_map CompOpp (SFcompare x y).
Proof.
  destruct x as [s|s| |s m e], y as [t|t| |t n f]; try reflexivity;
    try (destruct s; reflexivity); try (destruct t; reflexivity);
    try (destruct s, t; reflexivity).
  cbn [SFcompare option_map].
  assert (Pos.compare_cont Eq n m = CompOpp (Pos.compare_cont Eq m n)) as ->.
  { symmetry. apply (Pos.compare_cont_antisym m n Eq). }
  rewrite (Z.compare_antisym e f).
  destruct s, t; try reflexivity; destruct (e ?= f); cbn [CompOpp];
    try reflexivity; now rewrite ?CompOpp_involutive.
Qed.

Lemma SFcompare_defined (x y : float) :
  x <> S754_nan -> y <> S754_nan -> exists c, SFcompare x y = Some c.
Proof.
  intros X Y.
  destruct x as [s|s| |s m e], y as [t|t| |t n f]; try congruence;
    eexists; reflexivity.
Qed.

(** Without a NaN, "not greater" is "at most" and "not at most" is
    "greater". *)
Lemma not_ltb_leb (x y : float) :
  x <> S754_nan -> y <> S754_nan -> ltb y x = false -> leb x y = true.
Proof.
  intros X Y. unfold ltb, leb, SFltb, SFleb.
  rewrite (SFcompare_antisym x y).
  destruct (SFcompare_defined x y X Y) as [c ->].
  destruct c; simpl; congruence.
Qed.


(** ** The ranges of [speed] and [threshold] *)



(** X6. Whatever string [threshold] is given, a result it returns is a
    float between 0 and 1, both included.  A NaN passed in as a number
    is returned: neither comparison of the check holds for it. *)
Theorem threshold_range_invariant :
  (forall s r, threshold (Str s) = Ok r ->
     exists x, r = Float x
               /\ leb (lit "0.0") x = true /\ leb x (lit "1.0") = true)
  /\ threshold (Num (Float S754_nan)) = Ok (Float S754_nan).
Proof.
  split; [|reflexivity].
  intros s r. unfold threshold.
  destruct (number (Str s)) as [k|e] eqn:N; [|discriminate].
  destruct (number_Str_float s k N) as [x [-> X]].
  cbn [bind num_lt num_gt].
  destruct (ltb (of_Z 1) x) eqn:L1; cbn [orb]; [discriminate|].
  destruct (ltb x (of_Z 0)) eqn:L0; [discriminate|].
  intros E. injection E as <-. exists x. split; [reflexivity|]. split.
  - apply not_ltb_leb; [discriminate | exact X | exact L0].
  - apply not_ltb_leb; [exact X | discriminate | exact L1].
Qed.

Lemma threshold_range_invariant_witness :
  exists x, Float (lit "0.04") = Float x
            /\ leb (lit "0.0") x = true /\ leb x (lit "1.0") = true.
Proof.
  destruct threshold_range_invariant as [H _].
  apply (H "4%"). reflexivity.
Defined.

(** ** The tokenizer *)

Lemma split_at_unit_spec (s : string) :
  s = fst (split_at_unit s) ++ snd (split_at_unit s)
  /\ (snd (split_at_unit s) = ""
      \/ exists c t, snd (split_at_unit s) = String c t
                     /\ in_NUM_CHARS c = false).
Proof.
  induction s as [|c s [IH1 IH2]]; cbn [split_at_unit].
  - split; [reflexivity | now left].
  - destruct (in_NUM_CHARS c) eqn:C.
    + destruct (split_at_unit s) as [n u]. cbn [fst snd] in *.
      split; [simpl; now rewrite <- IH1 | exact IH2].
    + cbn [fst snd]. split; [reflexivity|]. right. now exists c, s.
Qed.

Lemma split_at_unit_app (n u : string) :
  all_chars in_NUM_CHARS n = true ->
  (u = "" \/ exists c t, u = String c t /\ in_NUM_CHARS c = false) ->
  split_at_unit (n ++ u) = (n, u).
Proof.
  intros N U. induction n as [|d n IH]; cbn [append].
  - destruct U as [->|[c [t [-> C]]]]; [reflexivity|].
    cbn [split_at_unit]. now rewrite C.
  - cbn [all_chars] in N. apply andb_true_iff in N. destruct N as [D N].
    cbn [split_at_unit]. now rewrite D, (IH N).
Qed.

(** X7. The tokenizer cuts a string into the longest prefix made of the
    characters of a number and the rest, the unit: the two give the
    string back, the unit is empty or starts with another character,
    and the number returned is [float] of the prefix.  So a string that
    is empty or starts with another character (a plus sign, a letter as
    in [inf], [nan] or [e5]) is an invalid number. *)
Theorem tokenizer_partition :
  (forall s x unit,
     _split_num_str (Str s) = Ok (Float x, unit) ->
     exists n,
       s = n ++ unit
       /\ all_chars in_NUM_CHARS n = true
       /\ (unit = "" \/ exists c t, unit = String c t /\ in_NUM_CHARS c = false)
       /\ of_str n = Ok x)
  /\ (forall s,
       s = "" \/ (exists c t, s = String c t /\ in_NUM_CHARS c = false) ->
       _split_num_str (Str s)
       = Raise (CoerceError ("Invalid number: '" ++ s ++ "'"))).
Proof.
  split.
  - intros s x unit H.
    destruct (_split_num_str_Str s) as [[y [T O]]|T]; rewrite T in H;
      [|discriminate H].
    injection H as <- <-. exists (fst (split_at_unit s)).
    destruct (split_at_unit_spec s) as [P U].
    repeat split; try assumption. apply split_at_unit_prefix.
  - intros s H. unfold _split_num_str.
    assert (split_at_unit s = ("", s)) as ->.
    { destruct H as [->|[c [t [-> C]]]]; [reflexivity|].
      cbn [split_at_unit]. now rewrite C. }
    reflexivity.
Qed.

Lemma tokenizer_partition_witness :
  (exists n, "-1.5 dB" = n ++ "dB"
             /\ all_chars in_NUM_CHARS n = true
             /\ ("dB" = "" \/ exists c t, "dB" = String c t
                                          /\ in_NUM_CHARS c = false)
             /\ of_str n = Ok (lit "-1.5"))
  /\ _split_num_str (Str "+5") = Raise (CoerceError "Invalid number: '+5'").
Proof.
  destruct tokenizer_partition as [P R]. split.
  - apply (P "-1.5 dB"). reflexivity.
  - apply (R "+5"). right. exists "+"%char, "5". split; reflexivity.
Defined.

(** ** Results fed back, and results that are never negative *)

Lemma sample_rate_natural (val : value) (n : Z) :
  sample_rate val = Ok n -> exists v, natural v = Ok n.
Proof.
  unfold sample_rate.
  destruct (_split_num_str val) as [[k u]|e]; [|discriminate]. cbn [bind].
  destruct (mem u ["kHz"; "KHz"]); [intros H; eexists; exact H|].
  destruct (_unit_check u [""; "Hz"]); [|discriminate].
  intros H. eexists. exact H.
Qed.

(** X8. [speed], [db_number] and [sample_rate] give their own result
    back when it is passed in again. *)
Theorem more_coercers_idempotent :
  (forall val r, speed val = Ok r -> speed (Num r) = Ok r)
  /\ (forall val r, db_number val = Ok r -> db_number r = Ok r)
  /\ (forall val n, sample_rate val = Ok n -> sample_rate (Num (Int n)) = Ok n).
Proof.
  split; [|split].
  - intros val r. unfold speed at 1.
    destruct (number val) as [k|e]; [|discriminate]. cbn [bind].
    destruct (num_le k 0 || num_gt k 99999) eqn:B; intros E; injection E as <-.
    + reflexivity.
    + unfold speed. rewrite number_Num. cbn [bind]. now rewrite B.
  - intros val r. unfold db_number at 1.
    destruct (_split_num_str val) as [[k u]|e] eqn:T; [|discriminate].
    cbn [bind]. destruct (String.eqb u "dB") eqn:U.
    + intros E. injection E as <-. unfold db_number. rewrite T. cbn [bind].
      now rewrite U.
    + destruct (number val) as [n|e]; [|discriminate].
      intros E. injection E as <-. reflexivity.
  - intros val n H. destruct (sample_rate_natural val n H) as [v N].
    pose proof (natural_Ok_nonneg v n N) as P.
    unfold sample_rate. cbn [_split_num_str bind mem existsb String.eqb orb].
    cbn [_unit_check mem existsb String.eqb orb bind].
    now apply natural_Int.
Qed.

Lemma more_coercers_idempotent_witness :
  speed (Num (Float (lit "99999.0"))) = Ok (Float (lit "99999.0"))
  /\ db_number (Str "-12dB") = Ok (Str "-12dB")
  /\ sample_rate (Num (Int 44100)) = Ok 44100.
Proof.
  destruct more_coercers_idempotent as [S [D R]]. split; [|split].
  - apply (S (Str "0")). reflexivity.
  - apply (D (Str "-12dB")). reflexivity.
  - apply (R (Str "44.1kHz")). reflexivity.
Defined.

(** X9. The coercers that end in [natural] never return a negative
    integer: [natural] itself, [sample_rate], the two numbers of
    [resolution] and the number of [stream]. *)
Theorem natural_results_nonnegative :
  (forall val n, natural val = Ok n -> 0 <= n)
  /\ (forall val n, sample_rate val = Ok n -> 0 <= n)
  /\ (forall s w h, resolution (Some s) = Ok (Some (w, h)) -> 0 <= w /\ 0 <= h)
  /\ (forall s n, stream s = Ok (Num (Int n)) -> 0 <= n).
Proof.
  split; [exact natural_Ok_nonneg|]. split; [|split].
  - intros val n H. destruct (sample_rate_natural val n H) as [v N].
    exact (natural_Ok_nonneg v n N).
  - intros s w h. unfold resolution.
    destruct (split comma (strip s)) as [|a [|b [|c l]]]; try discriminate.
    destruct (natural (Str a)) as [x|e] eqn:A; [|discriminate].
    destruct (natural (Str b)) as [y|e] eqn:B; [|discriminate].
    intros E. injection E as <- <-.
    split; [exact (natural_Ok_nonneg _ _ A) | exact (natural_Ok_nonneg _ _ B)].
  - intros s n. unfold stream. destruct (String.eqb s "all"); [discriminate|].
    destruct (natural (Str s)) as [x|e] eqn:A; [|discriminate].
    intros E. injection E as <-. exact (natural_Ok_nonneg _ _ A).
Qed.

Lemma natural_results_nonnegative_witness :
  0 <= 48000 /\ (0 <= 1920 /\ 0 <= 1080) /\ 0 <= 2.
Proof.
  destruct natural_results_nonnegative as [_ [S [R T]]]. split; [|split].
  - apply (S (Str "48kHz")). reflexivity.
  - apply (R " 1920,1080 "). reflexivity.
  - apply (T "2"). reflexivity.
Defined.

(** ** Splitting at commas *)

Lemma split_not_nil (c : ascii) (s : string) : split c s <> [].
Proof.
  pose proof (split_length c s) as L. destruct (split c s); [discriminate L|].
  discriminate.
Qed.

Lemma join_cons (c : ascii) (a : string) (l : list string) :
  l <> [] -> join c (a :: l) = a ++ String c (join c l).
Proof. destruct l; [congruence | reflexivity]. Qed.

(** [sep.join(s.split(sep))] is [s]. *)
Lemma join_split (c : ascii) (s : string) : join c (split c s) = s.
Proof.
  induction s as [|d s IH]; cbn [split]; [reflexivity|].
  pose proof (split_not_nil c s) as N.
  destruct (Ascii.eqb_spec d c) as [->|D].
  - rewrite (join_cons c "" _ N), IH. reflexivity.
  - destruct (split c s) as [|p ps]; [now elim N|].
    destruct ps as [|q ps].
    + simpl in *. now rewrite IH.
    + rewrite join_cons by discriminate.
      rewrite join_cons in IH by discriminate.
      rewrite <- IH. reflexivity.
Qed.

Lemma split_parts (c : ascii) (s : string) :
  Forall (fun p => contains c p = false) (split c s).
Proof.
  induction s as [|d s IH]; cbn [split].
  - now constructor.
  - destruct (Ascii.eqb_spec d c) as [->|D].
    + now constructor.
    + apply Ascii.eqb_neq in D.
      destruct (split c s) as [|p ps].
      * constructor; [simpl; now rewrite D | constructor].
      * inversion IH as [|? ? P PS]; subst. constructor; [|exact PS].
        simpl. now rewrite P, D.
Qed.

Lemma _comma_coerce_cases (name val : string) (num_args : nat) :
  _comma_coerce name val num_args
  = if (S (count comma (strip val)) <? num_args)%nat then
      Raise (CoerceError ("Too few arguments for " ++ name ++ "."))
    else if (num_args <? S (count comma (strip val)))%nat then
      Raise (CoerceError ("Too many arguments for " ++ name ++ "."))
    else Ok (split comma (strip val)).
Proof. unfold _comma_coerce. now rewrite split_length. Qed.

Lemma _comma_coerce_Ok (name val : string) (num_args : nat)
  (vals : list string) :
  _comma_coerce name val num_args = Ok vals ->
  List.length vals = num_args
  /\ join comma vals = strip val
  /\ Forall (fun p => contains comma p = false) vals.
Proof.
  rewrite _comma_coerce_cases.
  destruct (S (count comma (strip val)) <? num_args)%nat eqn:A;
    [discriminate|].
  destruct (num_args <? S (count comma (strip val)))%nat eqn:B;
    [discriminate|].
  intros H. injection H as <-. apply Nat.ltb_ge in A, B.
  split; [rewrite split_length; lia|].
  split; [apply join_split | apply split_parts].
Qed.

(** X10. [_comma_coerce], and with it [time_range], succeeds exactly
    when the stripped input has [num_args - 1] commas; fewer is "Too
    few arguments", more is "Too many arguments".  The strings returned
    are [num_args] in number, none contains a comma, and joined by
    commas they give the stripped input back. *)
Theorem comma_coerce_spec (name val : string) (num_args : nat) :
  (forall vals,
     _comma_coerce name val num_args = Ok vals ->
     List.length vals = num_args
     /\ join comma vals = strip val
     /\ Forall (fun p => contains comma p = false) vals)
  /\ ((S (count comma (strip val)) < num_args)%nat ->
      _comma_coerce name val num_args
      = Raise (CoerceError ("Too few arguments for " ++ name ++ ".")))
  /\ ((num_args < S (count comma (strip val)))%nat ->
      _comma_coerce name val num_args
      = Raise (CoerceError ("Too many arguments for " ++ name ++ ".")))
  /\ (S (count comma (strip val)) = num_args ->
      _comma_coerce name val num_args = Ok (split comma (strip val)))
  /\ time_range val = _comma_coerce "time_range" val 2.
Proof.
  split; [exact (_comma_coerce_Ok name val num_args)|].
  rewrite _comma_coerce_cases.
  split; [|split; [|split; [|reflexivity]]].
  - intros H. apply Nat.ltb_lt in H. now rewrite H.
  - intros H.
    assert ((S (count comma (strip val)) <? num_args)%nat = false) as ->
      by (apply Nat.ltb_ge; lia).
    apply Nat.ltb_lt in H. now rewrite H.
  - intros <-. now rewrite Nat.ltb_irrefl.
Qed.

Lemma comma_coerce_spec_witness :
  (List.length ["0"; "end"] = 2%nat
   /\ join comma ["0"; "end"] = strip " 0,end "
   /\ Forall (fun p => contains comma p = false) ["0"; "end"])
  /\ _comma_coerce "time_range" "1" 2
     = Raise (CoerceError "Too few arguments for time_range.")
  /\ _comma_coerce "time_range" "1,2,3" 2
     = Raise (CoerceError "Too many arguments for time_range.").
Proof.
  split; [|split].
  - destruct (comma_coerce_spec "time_range" " 0,end " 2) as [H _].
    apply H. reflexivity.
  - destruct (comma_coerce_spec "time_range" "1" 2) as [_ [H _]].
    apply H. simpl. lia.
  - destruct (comma_coerce_spec "time_range" "1,2,3" 2) as [_ [_ [H _]]].
    apply H. simpl. lia.
Defined.

(** X11. What [speed_range] returns: the stripped input is the three
    parts joined by commas, the first part is what [number] read (a
    float, no NaN), the second and the third come back as they are,
    free of commas. *)
Theorem speed_range_spec (val : string) (n : num) (a1 a2 : string) :
  speed_range val = Ok (n, a1, a2) ->
  exists a0 x,
    strip val = a0 ++ "," ++ a1 ++ "," ++ a2
    /\ number (Str a0) = Ok n
    /\ n = Float x /\ x <> S754_nan
    /\ contains comma a1 = false /\ contains comma a2 = false.
Proof.
  unfold speed_range.
  destruct (_comma_coerce "speed_range" val 3) as [vals|e] eqn:C;
    [|discriminate].
  destruct (_comma_coerce_Ok "speed_range" val 3 vals C) as [L [J F]].
  cbn [bind].
  destruct vals as [|b0 [|b1 [|b2 [|b3 l]]]]; try discriminate.
  destruct (number (Str b0)) as [k|e] eqn:N; [|discriminate].
  intros E. injection E as <- <- <-.
  destruct (number_Str_float b0 k N) as [x [-> X]].
  exists b0, x. inversion F as [|? ? _ F1]; subst.
  inversion F1 as [|? ? P1 F2]; subst. inversion F2 as [|? ? P2 _]; subst.
  repeat split; try assumption. now rewrite <- J.
Qed.

Lemma speed_range_spec_witness :
  exists a0 x,
    strip "2,0,10sec" = a0 ++ "," ++ "0" ++ "," ++ "10sec"
    /\ number (Str a0) = Ok (Float (lit "2.0"))
    /\ Float (lit "2.0") = Float x /\ x <> S754_nan
    /\ contains comma "0" = false /\ contains comma "10sec" = false.
Proof. apply (speed_range_spec "2,0,10sec"). reflexivity. Defined.

(** ** White space around the input *)

Lemma rstrip_by_idem (sp : ascii -> bool) (s : string) :
  rstrip_by sp (rstrip_by sp s) = rstrip_by sp s.
Proof.
  induction s as [|c s IH]; [reflexivity|]. cbn [rstrip_by].
  destruct (rstrip_by sp s) as [|d r] eqn:R.
  - destruct (sp c) eqn:C; [reflexivity|]. simpl. now rewrite C.
  - change (rstrip_by sp (String c (String d r)))
      with (match rstrip_by sp (String d r) with
            | EmptyString => if sp c then EmptyString else String c EmptyString
            | String d' r' => String c (String d' r')
            end).
    now rewrite IH.
Qed.

Lemma lstrip_by_head (sp : ascii -> bool) (s : string) :
  lstrip_by sp s = ""
  \/ exists c t, lstrip_by sp s = String c t /\ sp c = false.
Proof.
  induction s as [|c s IH]; simpl; [now left|].
  destruct (sp c) eqn:C; [exact IH|]. right. now exists c, s.
Qed.

Lemma strip_by_idem (sp : ascii -> bool) (s : string) :
  strip_by sp (strip_by sp s) = strip_by sp s.
Proof.
  unfold strip_by.
  assert (lstrip_by sp (rstrip_by sp (lstrip_by sp s))
          = rstrip_by sp (lstrip_by sp s)) as ->.
  { destruct (lstrip_by_head sp s) as [->|[c [t [-> C]]]]; [reflexivity|].
    cbn [rstrip_by]. destruct (rstrip_by sp t); rewrite ?C; simpl;
      now rewrite C. }
  apply rstrip_by_idem.
Qed.

(** X12. White space around the whole input does not matter to the
    coercers that split at commas: [margin], [time_range] and
    [speed_range] give the same on [val.strip()] as on [val]. *)
Theorem outer_space_ignored (val : string) :
  margin (strip val) = margin val
  /\ time_range (strip val) = time_range val
  /\ speed_range (strip val) = speed_range val.
Proof.
  unfold margin, time_range, speed_range, _comma_coerce, strip.
  rewrite strip_by_idem. repeat split.
Qed.

(** ** The canonical form of a color *)

Lemma is_hex_lower (c : ascii) : is_hex c = true -> lower_char c = c.
Proof. by_cases_on_char c. Qed.

Lemma is_hex_not_newline (c : ascii) :
  is_hex c = true -> Ascii.eqb c newline = false.
Proof. by_cases_on_char c. Qed.

Lemma all_hex_lower (h : string) : all_hex h = true -> lower h = h.
Proof.
  induction h as [|c h IH]; simpl; [reflexivity|].
  intros H. apply andb_true_iff in H. destruct H as [H1 H2].
  now rewrite (is_hex_lower c H1), (IH H2).
Qed.

Lemma all_hex_newline (h : string) :
  all_hex h = true -> contains newline h = false.
Proof.
  induction h as [|c h IH]; simpl; [reflexivity|].
  intros H. apply andb_true_iff in H. destruct H as [H1 H2].
  now rewrite (is_hex_not_newline c H1), (IH H2).
Qed.

Lemma all_hex_double (h : string) :
  all_hex h = true -> all_hex (double_each h) = true.
Proof.
  induction h as [|c h IH]; simpl; [reflexivity|].
  intros H. apply andb_true_iff in H. destruct H as [H1 H2].
  now rewrite H1, (IH H2).
Qed.

Lemma double_each_length (h : string) :
  String.length (double_each h) = (2 * String.length h)%nat.
Proof. induction h as [|c h IH]; simpl; [reflexivity | rewrite IH; lia]. Qed.

Lemma lookup_hash (m : list (string * string)) (h : string) :
  forallb (fun kv => match fst kv with
                     | String "#"%char _ => false
                     | _ => true
                     end) m = true ->
  lookup (String "#"%char h) m = None.
Proof.
  induction m as [|[k v] m IH]; [reflexivity|].
  cbn [forallb fst lookup]. intros H.
  apply andb_true_iff in H. destruct H as [K H]. rewrite (IH H).
  destruct k as [|d k]; [reflexivity|]. cbn [String.eqb].
  destruct (Ascii.eqb_spec "#"%char d) as [<-|D]; [discriminate K | reflexivity].
Qed.

Lemma color_cases (val : string) :
  color val
  = if match_hex 3 (resolved val)
    then Ok ("#" ++ double_each (tail (resolved val)))
    else if match_hex 6 (resolved val) then Ok (resolved val)
         else Raise ValueError.
Proof. reflexivity. Qed.

Lemma color_of_canonical (h : string) :
  String.length h = 6%nat -> all_hex h = true ->
  color (String "#"%char h) = Ok (String "#"%char h).
Proof.
  intros L H.
  assert (resolved (String "#"%char h) = String "#"%char h) as R.
  { unfold resolved. cbn [lower]. change (lower_char "#") with "#"%char.
    rewrite (all_hex_lower h H), lookup_hash; reflexivity. }
  assert (contains newline (String "#"%char h) = false) as N.
  { cbn [contains]. now rewrite (all_hex_newline h H). }
  rewrite color_cases, R.
  destruct (match_hex 3 (String "#"%char h)) eqn:B3.
  { apply (match_hex_iff 3 _ N) in B3. destruct B3 as [h' [E [L' _]]].
    injection E as <-. congruence. }
  assert (match_hex 6 (String "#"%char h) = true) as ->.
  { apply (match_hex_iff 6 _ N). now exists h. }
  reflexivity.
Qed.

(** X13. On an input without a newline, a result of [color] is always
    [#] and six lower-case hexadecimal digits, and [color] returns such
    a string as it is: [color(color(val)) == color(val)]. *)
Theorem color_canonical (val r : string) :
  contains newline val = false -> color val = Ok r ->
  (exists h, r = String "#"%char h
             /\ String.length h = 6%nat /\ all_hex h = true)
  /\ color r = Ok r.
Proof.
  intros N. apply resolved_newline in N. rewrite color_cases.
  destruct (match_hex 3 (resolved val)) eqn:B3.
  - apply (match_hex_iff 3 _ N) in B3. destruct B3 as [h [E [L H]]].
    rewrite E. cbn [tail]. intros R. injection R as <-.
    assert (String.length (double_each h) = 6%nat) as L6
        by (rewrite double_each_length, L; reflexivity).
    split.
    + exists (double_each h). repeat split; [exact L6|].
      now apply all_hex_double.
    + apply color_of_canonical; [exact L6 | now apply all_hex_double].
  - destruct (match_hex 6 (resolved val)) eqn:B6; [|discriminate].
    apply (match_hex_iff 6 _ N) in B6. destruct B6 as [h [E [L H]]].
    intros R. injection R as <-. rewrite E. split.
    + now exists h.
    + now apply color_of_canonical.
Qed.

Lemma color_canonical_witness :
  (exists h, "#33aaee" = String "#"%char h
             /\ String.length h = 6%nat /\ all_hex h = true)
  /\ color "#33aaee" = Ok "#33aaee".
Proof. apply (color_canonical "#3AE"); reflexivity. Defined.

Lemma lower_char_idem (c : ascii) : lower_char (lower_char c) = lower_char c.
Proof. by_cases_on_char c. Qed.

Lemma lower_idem (s : string) : lower (lower s) = lower s.
Proof.
  induction s as [|c s IH]; simpl; [reflexivity|].
  now rewrite lower_char_idem, IH.
Qed.

Lemma lookup_In (m : list (string * string)) (k v : string) :
  lookup k m = Some v -> In (k, v) m.
Proof.
  induction m as [|[k' v'] m IH]; [discriminate|]. cbn [lookup].
  destruct (String.eqb_spec k k') as [->|N].
  - intros E. injection E as <-. now left.
  - intros E. right. now apply IH.
Qed.

(** X14. [color] does not look at the case of its input:
    [color(val.lower())] is [color(val)].  Every name of the table, in
    any case, gives the value the table has for it. *)
Theorem color_case_insensitive :
  (forall val, color (lower val) = color val)
  /\ (forall val k v, In (k, v) colormap -> lower val = k -> color val = Ok v).
Proof.
  assert (forall val, color (lower val) = color val) as C.
  { intros val. rewrite !color_cases. unfold resolved.
    now rewrite lower_idem. }
  split; [exact C|].
  intros val k v I <-. rewrite <- C.
  assert (forallb (fun kv => match color (fst kv) with
                             | Ok r => String.eqb r (snd kv)
                             | Raise _ => false
                             end) colormap = true) as T
      by (vm_compute; reflexivity).
  rewrite forallb_forall in T. specialize (T _ I). cbn [fst snd] in T.
  destruct (color (lower val)) as [r|e]; [|discriminate T].
  apply String.eqb_eq in T. now subst.
Qed.

Lemma color_case_insensitive_witness :
  color "RebeccaPurple" = Ok "#663399".
Proof.
  destruct color_case_insensitive as [_ H].
  apply (H "RebeccaPurple" "rebeccapurple").
  - apply lookup_In. reflexivity.
  - reflexivity.
Defined.

Lemma color_without_newline_witness :
  color "#3AE" = Ok "#33aaee" /\ String.length (double_each "3ae") = 6%nat.
Proof.
  destruct (color_without_newline "#3AE" eq_refl) as [H _].
  apply (H "3ae"); reflexivity.
Defined.

(** ** The kinds of failure of [number], [time] and [margin] *)

Lemma in_range_raises (x : float) (e : exn) :
  in_range x = Raise e -> e = OverflowError.
Proof. destruct x; simpl; congruence. Qed.

Lemma int_truediv_raises (a b : Z) (e : exn) :
  b <> 0 -> int_truediv a b = Raise e -> e = OverflowError.
Proof.
  intros B. unfold int_truediv. apply Z.eqb_neq in B. rewrite B.
  destruct (Z.abs a); try discriminate.
  destruct (Z.abs b); try discriminate. apply in_range_raises.
Qed.

Lemma contains_all_chars_iff (c : ascii) (s : string) :
  contains c s = false
  <-> all_chars (fun d => negb (Ascii.eqb d c)) s = true.
Proof.
  induction s as [|d s IH]; simpl; [tauto|].
  rewrite orb_false_iff, andb_true_iff, negb_true_iff, IH. tauto.
Qed.

Lemma all_chars_split (p : ascii -> bool) (sep : ascii) (s : string) :
  all_chars p s = true ->
  Forall (fun q => all_chars p q = true) (split sep s).
Proof.
  induction s as [|d s IH]; cbn [split all_chars].
  - intros _. now constructor.
  - intros H. apply andb_true_iff in H. destruct H as [D H].
    specialize (IH H). destruct (Ascii.eqb d sep).
    + now constructor.
    + destruct (split sep s) as [|q qs].
      * constructor; [simpl; now rewrite D | constructor].
      * inversion IH as [|? ? Q QS]; subst. constructor; [|exact QS].
        simpl. now rewrite D, Q.
Qed.

Lemma time_without_colon_only (s : string) :
  contains ":"%char s = false -> only_CoerceError (time s).
Proof.
  intros C. unfold time. rewrite C.
  apply only_CoerceError_bind; [apply _split_num_str_only|].
  intros [n u] _. cbv beta iota.
  repeat match goal with
         | |- only_CoerceError (if ?b then _ else _) => destruct b
         end; auto with coerce.
  apply only_CoerceError_bind; [apply _unit_check_only|]. intros _ _.
  destruct (not_integral n) eqn:I; auto with coerce.
  destruct n as [z|x]; cbn [num_int bind]; auto with coerce.
  apply negb_false_iff in I.
  destruct (is_integer_to_int x I) as [z ->]. cbn [bind]. auto with coerce.
Qed.

(** X17. What [number], [time] and [margin] raise.  [number] raises a
    [CoerceError] or, from the division of two integers, an
    [OverflowError], and nothing else: the zero denominator is caught
    before the division.  On a string without a slash it raises a
    [CoerceError] only, as do [time] and [margin] on a string without a
    colon.  [time] in general adds the [ValueError] and the
    [OverflowError] of the colon form. *)
Theorem failure_kinds :
  (forall val e, number val = Raise e ->
     (exists msg, e = CoerceError msg) \/ e = OverflowError)
  /\ (forall s, contains "/"%char s = false -> only_CoerceError (number (Str s)))
  /\ (forall s, contains ":"%char s = false -> only_CoerceError (time s))
  /\ (forall s, contains ":"%char s = false -> only_CoerceError (margin s))
  /\ (forall s e, time s = Raise e ->
      (exists msg, e = CoerceError msg) \/ e = ValueError \/ e = OverflowError).
Proof.
  assert (forall val, only_CoerceError (_split_num_str val)) as T
      by apply _split_num_str_only.
  assert (forall u l, only_CoerceError (_unit_check u l)) as U
      by apply _unit_check_only.
  split; [|split; [|split; [exact time_without_colon_only|split]]].
  - intros val e.
    assert (forall e,
              (' (n, unit) <- _split_num_str val ;;
               if String.eqb unit "%" then x <- num_div n 100 ;; Ok (Float x)
               else _ <- _unit_check unit [""] ;; Ok n) = Raise e ->
              (exists msg, e = CoerceError msg) \/ e = OverflowError) as K.
    { clear e. intros e. destruct (_split_num_str val) as [[n u]|e'] eqn:S.
      - cbn [bind]. destruct (String.eqb u "%").
        + destruct n as [z|x]; cbn [num_div bind]; [|discriminate].
          destruct (int_truediv z 100) as [y|e'] eqn:D; [discriminate|].
          intros E. injection E as <-. right.
          apply (int_truediv_raises z 100); [lia | exact D].
        + destruct (_unit_check u [""]) as [[]|e'] eqn:C; [discriminate|].
          intros E. injection E as <-. left. now apply (U u [""]).
      - intros E. injection E as <-. left. now apply (T val). }
    destruct val as [n|s]; [exact (K e)|].
    unfold number. cbv zeta.
    destruct (contains "/"%char s); [|exact (K e)].
    destruct (split "/"%char s) as [|a [|b [|c l]]];
      try (intros E; injection E as <-; left; eexists; reflexivity).
    destruct (int_or_CoerceError_cases s a) as [[n ->]| ->];
      [|intros E; injection E as <-; left; eexists; reflexivity].
    destruct (int_or_CoerceError_cases s b) as [[d ->]| ->];
      [|intros E; injection E as <-; left; eexists; reflexivity].
    cbn [bind]. destruct (d =? 0) eqn:Z;
      [intros E; injection E as <-; left; eexists; reflexivity|].
    destruct (int_truediv n d) as [y|e'] eqn:D; [discriminate|].
    intros E. injection E as <-. right.
    apply (int_truediv_raises n d); [now apply Z.eqb_neq | exact D].
  - intros s C.
    destruct (_split_num_str_Str s) as [[x [S _]]|S].
    + rewrite (number_tokenized s x _ C S).
      destruct (String.eqb _ "%"); auto with coerce.
      apply only_CoerceError_bind; auto with coerce.
    + unfold number. rewrite C, S. cbn [bind]. auto with coerce.
  - intros s C. unfold margin.
    apply contains_all_chars_iff in C.
    pose proof (all_chars_split _ comma _
                  (all_chars_rstrip _ is_space _
                     (all_chars_lstrip _ is_space _ C))) as F.
    fold (strip_by is_space s) in F. fold (strip s) in F.
    destruct (split comma (strip s)) as [|a [|b [|c l]]]; auto with coerce.
    + inversion F as [|? ? A _]; subst. apply contains_all_chars_iff in A.
      apply only_CoerceError_bind; [now apply time_without_colon_only|].
      intros x _.
      apply only_CoerceError_bind; [now apply time_without_colon_only|].
      auto with coerce.
    + inversion F as [|? ? A F']; subst. inversion F' as [|? ? B _]; subst.
      apply contains_all_chars_iff in A, B.
      apply only_CoerceError_bind; [now apply time_without_colon_only|].
      intros x _.
      apply only_CoerceError_bind; [now apply time_without_colon_only|].
      auto with coerce.
  - intros s e. destruct (contains ":"%char s) eqn:C.
    + unfold time. rewrite C.
      assert (forall z x e, (t <- int_add_float z x ;; Ok (Str (to_str t)))
                            = Raise e -> e = OverflowError) as A.
      { intros z x e'. unfold int_add_float, of_int.
        destruct (in_range (of_Z z)) as [y|e''] eqn:R; [discriminate|].
        intros E. injection E as <-. exact (in_range_raises _ _ R). }
      destruct (split ":"%char s) as [|a [|b [|c [|d l]]]];
        try (intros E; injection E as <-; left; eexists; reflexivity).
      * destruct (int_of_str a) as [m|e'] eqn:M;
          [|intros E; injection E as <-; right; left;
            exact (int_of_str_raises _ _ M)].
        destruct (of_str b) as [x|e'] eqn:X;
          [|intros E; injection E as <-; right; left;
            exact (of_str_raises _ _ X)].
        cbn [bind]. intros E. right. right. exact (A _ _ _ E).
      * destruct (int_of_str a) as [h|e'] eqn:H;
          [|intros E; injection E as <-; right; left;
            exact (int_of_str_raises _ _ H)].
        destruct (int_of_str b) as [m|e'] eqn:M;
          [|intros E; injection E as <-; right; left;
            exact (int_of_str_raises _ _ M)].
        destruct (of_str c) as [x|e'] eqn:X;
          [|intros E; injection E as <-; right; left;
            exact (of_str_raises _ _ X)].
        cbn [bind]. intros E. right. right. exact (A _ _ _ E).
    + intros E. left. exact (time_without_colon_only s C e E).
Qed.

Lemma failure_kinds_witness :
  only_CoerceError (number (Str "fast"))
  /\ only_CoerceError (time "1.5")
  /\ only_CoerceError (margin "0.2,0.2")
  /\ ((exists msg, ValueError = CoerceError msg)
      \/ ValueError = ValueError \/ ValueError = OverflowError).
Proof.
  destruct failure_kinds as [_ [N [T [M K]]]]. repeat split.
  - apply N. reflexivity.
  - apply T. reflexivity.
  - apply M. reflexivity.
  - apply (K "a:b"). reflexivity.
Defined.

(** ** The units of [sample_rate] *)

Lemma _split_num_str_app (n u : string) (x : float) :
  all_chars in_NUM_CHARS n = true ->
  (u = "" \/ exists c t, u = String c t /\ in_NUM_CHARS c = false) ->
  of_str n = Ok x ->
  _split_num_str (Str (n ++ u)) = Ok (Float x, u).
Proof.
  intros N U O. unfold _split_num_str.
  now rewrite (split_at_unit_app n u N U), O.
Qed.

Lemma append_empty (s : string) : s ++ "" = s.
Proof. induction s as [|c s IH]; simpl; [reflexivity | now rewrite IH]. Qed.

(** X18. [sample_rate] on a number [n] followed by a unit: with no
    unit or with [Hz] the result is [natural] of the number, with [kHz]
    or [KHz] it is [natural] of the number times 1000, and every other
    unit is unknown.  The number reaches [natural] as a float, not as
    the text. *)
Theorem sample_rate_units (n : string) (x : float) :
  all_chars in_NUM_CHARS n = true -> of_str n = Ok x ->
  sample_rate (Str n) = natural (Num (Float x))
  /\ sample_rate (Str (n ++ "Hz")) = natural (Num (Float x))
  /\ sample_rate (Str (n ++ "kHz"))
     = natural (Num (Float (mul x (lit "1000.0"))))
  /\ sample_rate (Str (n ++ "KHz"))
     = natural (Num (Float (mul x (lit "1000.0"))))
  /\ (forall c t,
      in_NUM_CHARS c = false -> mem (String c t) ["Hz"; "kHz"; "KHz"] = false ->
      sample_rate (Str (n ++ String c t))
      = Raise (CoerceError ("Unknown unit: '" ++ String c t ++ "'"))).
Proof.
  intros N O.
  assert (forall u,
            (u = "" \/ exists c t, u = String c t /\ in_NUM_CHARS c = false) ->
            sample_rate (Str (n ++ u))
            = if mem u ["kHz"; "KHz"]
              then natural (Num (Float (mul x (lit "1000.0"))))
              else _ <- _unit_check u [""; "Hz"] ;; natural (Num (Float x)))
    as K.
  { intros u U. unfold sample_rate.
    rewrite (_split_num_str_app n u x N U O). reflexivity. }
  repeat split.
  - rewrite <- (append_empty n) at 1. rewrite K by now left. reflexivity.
  - rewrite K; [reflexivity|]. right. now exists "H"%char, "z".
  - rewrite K; [reflexivity|]. right. now exists "k"%char, "Hz".
  - rewrite K; [reflexivity|]. right. now exists "K"%char, "Hz".
  - intros c t C M. rewrite K by (right; now exists c, t).
    unfold mem in *. cbn [existsb] in *.
    apply orb_false_iff in M. destruct M as [M1 M].
    apply orb_false_iff in M. destruct M as [M2 M].
    apply orb_false_iff in M. destruct M as [M3 _].
    rewrite M2, M3. cbn [orb]. unfold _unit_check, mem. cbn [existsb].
    rewrite M1. reflexivity.
Qed.

Lemma sample_rate_units_witness :
  sample_rate (Str "44.1") = natural (Num (Float (lit "44.1")))
  /\ sample_rate (Str "48000 Hz") = Ok 48000
  /\ sample_rate (Str "44.1kHz") = Ok 44100
  /\ sample_rate (Str "48khz") = Raise (CoerceError "Unknown unit: 'khz'").
Proof.
  destruct (sample_rate_units "44.1" (lit "44.1") eq_refl eq_refl)
    as [A [_ [B _]]].
  destruct (sample_rate_units "48000 " (lit "48000.0") eq_refl eq_refl)
    as [_ [C _]].
  destruct (sample_rate_units "48" (lit "48.0") eq_refl eq_refl)
    as [_ [_ [_ [_ D]]]].
  split; [exact A|]. split; [|split].
  - change "48000 Hz" with ("48000 " ++ "Hz"). rewrite C. reflexivity.
  - change "44.1kHz" with ("44.1" ++ "kHz"). rewrite B. reflexivity.
  - apply (D "k"%char "hz"); reflexivity.
Defined.

(** ** [db_threshold] where [pow] is not asked *)

(** X19. Three cases of [db_threshold] that do not depend on [pow]: a
    magnitude of zero decibels, of either sign, gives exactly 1.0; a
    magnitude that overflowed to minus infinity gives 0.0; and a string
    with another unit than [dB] gives, when it gives anything, a float
    between 0 and 1. *)
Theorem db_threshold_without_pow (libm_pow : float -> float -> float) :
  (forall s b,
     _split_num_str (Str s) = Ok (Float (S754_zero b), "dB") ->
     db_threshold libm_pow (Str s) = Ok (Float (lit "1.0")))
  /\ (forall s,
      _split_num_str (Str s) = Ok (Float (S754_infinity true), "dB") ->
      db_threshold libm_pow (Str s) = Ok (Float (lit "0.0")))
  /\ (forall s x unit r,
      _split_num_str (Str s) = Ok (Float x, unit) -> unit <> "dB" ->
      db_threshold libm_pow (Str s) = Ok r ->
      exists y, r = Float y
                /\ leb (lit "0.0") y = true /\ leb y (lit "1.0") = true).
Proof.
  split; [|split].
  - intros s b T. rewrite (db_threshold_cases libm_pow s _ _ T).
    destruct b; reflexivity.
  - intros s T. rewrite (db_threshold_cases libm_pow s _ _ T). reflexivity.
  - intros s x unit r T U. rewrite (db_threshold_cases libm_pow s _ _ T).
    apply String.eqb_neq in U. rewrite U. unfold threshold.
    destruct (number (Str s)) as [k|e] eqn:N; [|discriminate].
    destruct (number_Str_float s k N) as [y [-> Y]].
    cbn [bind num_lt num_gt].
    destruct (ltb (of_Z 1) y) eqn:L1; cbn [orb]; [discriminate|].
    destruct (ltb y (of_Z 0)) eqn:L0; [discriminate|].
    intros E. injection E as <-. exists y. split; [reflexivity|]. split.
    + apply not_ltb_leb; [discriminate | exact Y | exact L0].
    + apply not_ltb_leb; [exact Y | discriminate | exact L1].
Qed.

Lemma db_threshold_without_pow_witness :
  db_threshold pow_rounded (Str "-0dB") = Ok (Float (lit "1.0"))
  /\ db_threshold pow_rounded (Str ("-1" ++ zeros 400 ++ "dB"))
     = Ok (Float (lit "0.0"))
  /\ exists y, Float (lit "0.5") = Float y
               /\ leb (lit "0.0") y = true /\ leb y (lit "1.0") = true.
Proof.
  destruct (db_threshold_without_pow pow_rounded) as [Z [I R]].
  split; [|split].
  - apply (Z "-0dB" true). reflexivity.
  - apply (I ("-1" ++ zeros 400 ++ "dB")). vm_compute. reflexivity.
  - apply (R "50%" (lit "50.0") "%"); [reflexivity | discriminate | reflexivity].
Defined.

(** ** The kind of value [time] returns *)

(** X20. [time] never returns a float.  It returns an integer exactly
    for an input without a colon whose unit is empty, and a string in
    every other case in which it returns. *)
Theorem time_result_kind (val : string) (v : value) :
  time val = Ok v ->
  match v with
  | Num (Int _) => contains ":"%char val = false /\ snd (split_at_unit val) = ""
  | Num (Float _) => False
  | Str _ => contains ":"%char val = true \/ snd (split_at_unit val) <> ""
  end.
Proof.
  unfold time. destruct (contains ":"%char val) eqn:C.
  - destruct (split ":"%char val) as [|a [|b [|c [|d l]]]]; try discriminate.
    + destruct (int_of_str a); [|discriminate].
      destruct (of_str b); [|discriminate]. cbn [bind].
      destruct (int_add_float _ _); [|discriminate].
      intros E. injection E as <-. now left.
    + destruct (int_of_str a); [|discriminate].
      destruct (int_of_str b); [|discriminate].
      destruct (of_str c); [|discriminate]. cbn [bind].
      destruct (int_add_float _ _); [|discriminate].
      intros E. injection E as <-. now left.
  - destruct (_split_num_str_Str val) as [[x [T _]]|T]; rewrite T;
      [|discriminate].
    cbn [bind]. set (u := snd (split_at_unit val)).
    destruct (mem u ["s"; "sec"; "secs"; "second"; "seconds"]) eqn:M1.
    { intros E. injection E as <-. right. intros U. now rewrite U in M1. }
    destruct (mem u ["m"; "min"; "mins"; "minute"; "minutes"]) eqn:M2.
    { intros E. injection E as <-. right. intros U. now rewrite U in M2. }
    destruct (mem u ["h"; "hour"; "hours"]) eqn:M3.
    { intros E. injection E as <-. right. intros U. now rewrite U in M3. }
    unfold _unit_check, mem. cbn [existsb].
    destruct (String.eqb_spec u "") as [U|U]; [|discriminate].
    cbn [orb bind]. destruct (not_integral (Float x)); [discriminate|].
    destruct (num_int (Float x)); [|discriminate].
    intros E. injection E as <-. now split.
Qed.

Lemma time_result_kind_witness :
  (contains ":"%char "90" = false /\ snd (split_at_unit "90") = "")
  /\ (contains ":"%char "1:30" = true \/ snd (split_at_unit "1:30") <> "").
Proof.
  split.
  - apply (time_result_kind "90" (Num (Int 90))). reflexivity.
  - apply (time_result_kind "1:30" (Str "90.0")). reflexivity.
Defined.

(** ** Integers through [resolution], [margin], [stream] and [pos] *)

Lemma str_of_int_chars (z : Z) :
  all_chars digit_or_minus (str_of_int z) = true.
Proof.
  destruct z as [|p|p]; [reflexivity|..];
    destruct (str_of_pos p) as [c [t [E [D [_ E']]]]].
  - rewrite E. apply (all_chars_impl is_digit); [|exact D].
    intros d H. unfold digit_or_minus. now rewrite H.
  - rewrite E'.
    change (all_chars digit_or_minus (String "-"%char (String c t)))
      with (all_chars digit_or_minus (String c t)).
    apply (all_chars_impl is_digit); [|exact D].
    intros d H. unfold digit_or_minus. now rewrite H.
Qed.

Lemma digit_or_minus_not_space (c : ascii) :
  digit_or_minus c = true -> negb (is_space c) = true.
Proof. by_cases_on_char c. Qed.

Lemma digit_or_minus_not_a (c : ascii) :
  digit_or_minus c = true -> Ascii.eqb c "a" = false.
Proof. by_cases_on_char c. Qed.

Lemma str_of_int_head (z : Z) : exists c t, str_of_int z = String c t.
Proof.
  destruct z as [|p|p]; [now exists "0"%char, ""|..];
    destruct (str_of_pos p) as [c [t [E [_ [_ E']]]]].
  - now exists c, t.
  - now exists "-"%char, (String c t).
Qed.

Lemma pair_of_text (a b : Z) :
  split comma (strip (str_of_int a ++ "," ++ str_of_int b))
  = [str_of_int a; str_of_int b].
Proof.
  assert (all_chars (fun c => negb (is_space c))
            (str_of_int a ++ "," ++ str_of_int b) = true) as S.
  { rewrite all_chars_app. cbn [append all_chars].
    change (negb (is_space ",")) with true.
    rewrite !(all_chars_impl digit_or_minus _ _ digit_or_minus_not_space);
      [reflexivity | apply str_of_int_chars | apply str_of_int_chars]. }
  unfold strip. rewrite (strip_by_none _ _ S).
  destruct (join_two_no_sep comma (str_of_int a) (str_of_int b)
              (str_of_int_no comma a eq_refl) (str_of_int_no comma b eq_refl))
    as [_ P].
  exact P.
Qed.

Lemma exact_round (s : bool) (m p : positive) (e : Z) :
  e <= 0 -> Zpos m = Zpos p * 2 ^ (- e) ->
  round (S754_finite s m e) = Ok (if s then Zneg p else Zpos p).
Proof.
  intros E M. unfold round. rewrite M.
  assert (0 < 2 ^ (- e)) as P by (apply Z.pow_pos_nonneg; lia).
  rewrite Z.mod_mul, Z.div_mul by lia.
  destruct (0 <=? e) eqn:L.
  - apply Z.leb_le in L. assert (e = 0) as -> by lia.
    destruct s; simpl; rewrite !Pos.mul_1_r; reflexivity.
  - cbv zeta.
    assert ((2 * 0 ?= 2 ^ (- e)) = Lt) as -> by (apply Z.compare_lt_iff; lia).
    destruct s; reflexivity.
Qed.

Lemma of_Z_small_round (z : Z) :
  - 2 ^ 53 < z < 2 ^ 53 -> round (of_Z z) = Ok z.
Proof.
  intros H. destruct z as [|p|p]; [reflexivity|..].
  - destruct (binary_round_small false p) as [m [e [B [E M]]]]; [lia|].
    unfold of_Z, binary_normalize. rewrite B. exact (exact_round false m p e E M).
  - destruct (binary_round_small true p) as [m [e [B [E M]]]]; [lia|].
    unfold of_Z, binary_normalize. rewrite B. exact (exact_round true m p e E M).
Qed.

(** X21. Integers written out come back from the coercers that take
    them: [resolution(str(w) + "," + str(h))] is [(w, h)] and
    [stream(str(n))] is [n] for integers from 0 up to [2^53] excluded,
    [margin(str(a) + "," + str(b))] is [(a, b)] and [pos((str(n),
    ref))] is [n], whatever [ref], for integers of absolute value below
    [2^53]. *)
Theorem integers_round_trip :
  (forall w h, 0 <= w < 2 ^ 53 -> 0 <= h < 2 ^ 53 ->
     resolution (Some (str_of_int w ++ "," ++ str_of_int h)) = Ok (Some (w, h)))
  /\ (forall n, 0 <= n < 2 ^ 53 -> stream (str_of_int n) = Ok (Num (Int n)))
  /\ (forall a b, - 2 ^ 53 < a < 2 ^ 53 -> - 2 ^ 53 < b < 2 ^ 53 ->
      margin (str_of_int a ++ "," ++ str_of_int b)
      = Ok (Num (Int a), Num (Int b)))
  /\ (forall n ref, - 2 ^ 53 < n < 2 ^ 53 ->
      pos (Str (str_of_int n), ref) = Ok n).
Proof.
  split; [|split; [|split]].
  - intros w h W H. unfold resolution. rewrite pair_of_text.
    now rewrite (natural_small_text w W), (natural_small_text h H).
  - intros n N. unfold stream.
    assert (String.eqb (str_of_int n) "all" = false) as ->.
    { pose proof (str_of_int_chars n) as C.
      destruct (str_of_int_head n) as [c [t E]]. rewrite E in *.
      cbn [all_chars] in C. apply andb_true_iff in C. destruct C as [C _].
      cbn [String.eqb]. now rewrite (digit_or_minus_not_a c C). }
    now rewrite (natural_small_text n N).
  - intros a b A B. unfold margin. rewrite pair_of_text.
    now rewrite (time_small_text a A), (time_small_text b B).
  - intros n ref N. unfold pos. cbn [fst]. rewrite _split_num_str_of_int.
    cbn [bind String.eqb _unit_check mem existsb orb].
    exact (of_Z_small_round n N).
Qed.

Lemma integers_round_trip_witness :
  resolution (Some (str_of_int 1920 ++ "," ++ str_of_int 1080))
  = Ok (Some (1920, 1080))
  /\ stream (str_of_int 0) = Ok (Num (Int 0))
  /\ margin (str_of_int (-2) ++ "," ++ str_of_int 4)
     = Ok (Num (Int (-2)), Num (Int 4))
  /\ pos (Str (str_of_int 10), 200) = Ok 10.
Proof.
  destruct integers_round_trip as [R [S [M P]]].
  split; [|split; [|split]].
  - apply R; lia.
  - apply S; lia.
  - apply M; lia.
  - apply P; lia.
Defined.
